(** * price_watcher.py: a shallow embedding and its checked properties

    The development follows the layout of [src/price_watcher.py]:

    - [PyStr]    Python [str] values (sequences of code points) and the
                 string methods the program calls;
    - [PyFloat]  the built-in [float] conversion, on binary64 values;
    - [parse_price] (lines 44-82), and the rules of the specification it
      is compared with;
    - [ensure_db], [record], [fetch_price], [run_once] (lines 84-160), in
      a state-and-exception monad over the configuration file, the table
      [price_history], the log of requests, the clock, the two output
      streams and the order in which the effects happened; the network,
      the HTML parser and the clock are parameters;
    - the facts: first the pipeline, then strings, the float conversion
      and [parse_price], and last some concrete runs. *)

From Stdlib Require Import ZArith NArith List Bool Lia.
From Stdlib Require String Ascii.
Import String.StringSyntax.
Delimit Scope string_scope with string.
From Stdlib Require Import Floats.SpecFloat.
Import ListNotations.

Set Implicit Arguments.

(* ================================================================== *)
(** * Python strings *)
(* ================================================================== *)

Module PyStr.

Local Open Scope N_scope.

(** A [str] is a sequence of Unicode code points. *)
Definition char := N.
Definition str := list char.

(** String literals of the source, all ASCII. *)
Definition lit (s : String.string) : str :=
  List.map Ascii.N_of_ascii (String.list_ascii_of_string s).

Definition c_space : char := 32.
Definition c_plus : char := 43.
Definition c_comma : char := 44.
Definition c_minus : char := 45.
Definition c_dot : char := 46.
Definition c_zero : char := 48.
Definition c_qmark : char := 63.
Definition c_underscore : char := 95.

(** [str.isspace] on one character, which is also the class [\s] of
    [re] for [str] patterns and the set removed by [str.strip()]. *)
Definition isspace (c : char) : bool :=
  ((9 <=? c) && (c <=? 13)) || ((28 <=? c) && (c <=? 32))
  || (c =? 133) || (c =? 160) || (c =? 5760)
  || ((8192 <=? c) && (c <=? 8202))
  || (c =? 8232) || (c =? 8233) || (c =? 8239) || (c =? 8287)
  || (c =? 12288).

(** First code point of each run of ten decimal digits (general category
    Nd, Unicode 14.0): the run starting at [z] holds the digits 0 to 9 at
    [z], ..., [z + 9]. *)
Definition decimal_zeros : list char :=
  [ 48; 1632; 1776; 1984; 2406; 2534; 2662; 2790; 2918; 3046; 3174; 3302;
    3430; 3558; 3664; 3792; 3872; 4160; 4240; 6112; 6160; 6470; 6608; 6784;
    6800; 6992; 7088; 7232; 7248; 42528; 43216; 43264; 43472; 43504; 43600;
    44016; 65296; 66720; 68912; 69734; 69872; 69942; 70096; 70384; 70736;
    70864; 71248; 71360; 71472; 71904; 72016; 72784; 73040; 73120; 92768;
    92864; 93008; 120782; 120792; 120802; 120812; 120822; 123200; 123632;
    125264; 130032 ].

(** The decimal value of a character, when it is a decimal digit. *)
Fixpoint decimal_in (zeros : list char) (c : char) : option N :=
  match zeros with
  | [] => None
  | z :: zeros' =>
      if (z <=? c) && (c <? z + 10) then Some (c - z)
      else decimal_in zeros' c
  end.

Definition todecimal (c : char) : option N := decimal_in decimal_zeros c.

(** The class [\d] of [re] for [str] patterns. *)
Definition isdecimal (c : char) : bool :=
  match todecimal c with Some _ => true | None => false end.

(** [s.lstrip()], [s.rstrip()] and [s.strip()] with no argument. *)
Fixpoint lstrip (s : str) : str :=
  match s with
  | [] => []
  | c :: s' => if isspace c then lstrip s' else s
  end.

Fixpoint rstrip (s : str) : str :=
  match s with
  | [] => []
  | c :: s' =>
      match rstrip s' with
      | [] => if isspace c then [] else [c]
      | t => c :: t
      end
  end.

Definition strip (s : str) : str := lstrip (rstrip s).

(** [c in s] for a one-character [c]. *)
Definition contains (c : char) (s : str) : bool :=
  existsb (N.eqb c) s.

(** [s.count(c)]. *)
Fixpoint count (c : char) (s : str) : nat :=
  match s with
  | [] => O
  | x :: s' => if x =? c then S (count c s') else count c s'
  end.

(** [s.rfind(c)]: the highest index of [c] in [s], or -1. *)
Fixpoint rfind_from (c : char) (s : str) (i : Z) (found : Z) : Z :=
  match s with
  | [] => found
  | x :: s' => rfind_from c s' (i + 1)%Z (if x =? c then i else found)
  end.

Definition rfind (c : char) (s : str) : Z := rfind_from c s 0%Z (-1)%Z.

(** [s.replace(c, new)] for a one-character [c]: every occurrence is
    replaced. *)
Fixpoint replace (c : char) (new : str) (s : str) : str :=
  match s with
  | [] => []
  | x :: s' => if x =? c then new ++ replace c new s' else x :: replace c new s'
  end.

(** [s.split(c)] for a one-character separator: never the empty list. *)
Fixpoint split (c : char) (s : str) : list str :=
  match s with
  | [] => [[]]
  | x :: s' =>
      match split c s' with
      | [] => [[]]
      | p :: ps => if x =? c then [] :: p :: ps else (x :: p) :: ps
      end
  end.

(** [parts[:-1]] and [parts[-1]] of a list of strings. *)
Definition all_but_last (parts : list str) : list str := removelast parts.
Definition last_part (parts : list str) : str := last parts [].

(** ["".join(parts)]. *)
Definition join_empty (parts : list str) : str := concat parts.

End PyStr.

(* ================================================================== *)
(** * The built-in float conversion *)
(* ================================================================== *)

Module PyFloat.

Import PyStr.

(** Python floats are IEEE 754 binary64 values. *)
Definition float := spec_float.
Definition prec : Z := 53.
Definition emax : Z := 1024.

(** The binary64 value nearest to [m * 10 ^ e10] (ties to even), with
    sign [neg]: the value [float] gives to a decimal numeral with digits
    [m] and decimal exponent [e10]. Overflow gives an infinity. *)
Definition of_decimal (neg : bool) (m : N) (e10 : Z) : float :=
  match m with
  | N0 => S754_zero neg
  | Npos p =>
      if (0 <=? e10)%Z then
        binary_round prec emax neg (p * Z.to_pos (10 ^ e10))%positive 0
      else
        let '(q, e, l) :=
          SFdiv_core_binary prec emax (Zpos p) 0 (10 ^ (- e10))%Z 0 in
        binary_round_aux prec emax neg q e l
  end.

(** [float(n)] for an [int]: the nearest binary64 value; integers beyond
    the finite range raise [OverflowError] ([None] here). *)
Definition of_int (z : Z) : option float :=
  match binary_normalize prec emax z 0 false with
  | S754_infinity _ => None
  | f => Some f
  end.

(** [x <= y] on floats; false when either side is a NaN. *)
Definition le (x y : float) : bool := SFleb x y.

(** The sign bit is clear and the value is a number. *)
Definition nonneg (x : float) : bool :=
  match x with
  | S754_zero s | S754_infinity s | S754_finite s _ _ => negb s
  | S754_nan => false
  end.

Local Open Scope N_scope.

(** Whitespace for the C-level parser ([Py_ISSPACE]). *)
Definition ascii_space (c : char) : bool :=
  ((9 <=? c) && (c <=? 13)) || (c =? 32).

Definition ascii_digit (c : char) : bool := (48 <=? c) && (c <=? 57).

(** Before parsing, every non-ASCII whitespace character becomes a space
    and every non-ASCII decimal digit its ASCII digit; any other
    non-ASCII character becomes ['?'], which no numeral contains. *)
Definition to_ascii_char (c : char) : char :=
  if c <? 127 then c
  else if isspace c then c_space
  else match todecimal c with
       | Some d => c_zero + d
       | None => c_qmark
       end.

Definition to_ascii (s : str) : str := List.map to_ascii_char s.

(** Underscores may only stand between two digits; they are removed.
    [prev] is the previous character of the input (0 at the start). *)
Fixpoint underscores_from (prev : char) (s : str) : option str :=
  match s with
  | [] => if prev =? c_underscore then None else Some []
  | c :: s' =>
      if c =? c_underscore then
        if ascii_digit prev then underscores_from c s' else None
      else if (prev =? c_underscore) && negb (ascii_digit c) then None
      else option_map (cons c) (underscores_from c s')
  end.

Definition remove_underscores (s : str) : option str :=
  if contains c_underscore s then underscores_from 0 s else Some s.

Fixpoint ascii_lstrip (s : str) : str :=
  match s with
  | [] => []
  | c :: s' => if ascii_space c then ascii_lstrip s' else s
  end.

Definition ascii_strip (s : str) : str :=
  rev (ascii_lstrip (rev (ascii_lstrip s))).

(** The longest prefix of ASCII digits, as digit values, and the rest. *)
Fixpoint span_digits (s : str) : list N * str :=
  match s with
  | [] => ([], [])
  | c :: s' =>
      if ascii_digit c then
        let '(ds, r) := span_digits s' in (c - c_zero :: ds, r)
      else ([], s)
  end.

Definition digits_value (ds : list N) : N :=
  fold_left (fun acc d => 10 * acc + d) ds 0.

(** The exponent part: empty, or [e] or [E], an optional sign and at
    least one digit, up to the end of the string. *)
Definition parse_exponent (s : str) : option Z :=
  match s with
  | [] => Some 0%Z
  | c :: s' =>
      if (c =? 101) || (c =? 69) then
        let '(eneg, r) :=
          match s' with
          | x :: r' =>
              if x =? c_minus then (true, r')
              else if x =? c_plus then (false, r') else (false, s')
          | [] => (false, s')
          end in
        match span_digits r with
        | (d :: ds, []) =>
            let e := Z.of_N (digits_value (d :: ds)) in
            Some (if eneg then (- e)%Z else e)
        | _ => None
        end
      else None
  end.

(** An unsigned decimal numeral: digits with an optional point, at least
    one digit in all, then the exponent part. *)
Definition parse_decimal (neg : bool) (s : str) : option float :=
  let '(ip, r1) := span_digits s in
  let '(fp, r2) :=
    match r1 with
    | c :: r => if c =? c_dot then span_digits r else ([], r1)
    | [] => ([], r1)
    end in
  match ip ++ fp with
  | [] => None
  | ds =>
      match parse_exponent r2 with
      | Some e =>
          Some (of_decimal neg (digits_value ds) (e - Z.of_nat (length fp)))
      | None => None
      end
  end.

Definition lower (c : char) : char :=
  if (65 <=? c) && (c <=? 90) then c + 32 else c.

Definition str_eqb (a b : str) : bool :=
  if list_eq_dec N.eq_dec a b then true else false.

(** [inf], [infinity] and [nan], in any letter case. *)
Definition parse_inf_or_nan (neg : bool) (s : str) : option float :=
  let l := List.map lower s in
  if str_eqb l (lit "inf"%string) || str_eqb l (lit "infinity"%string)
  then Some (S754_infinity neg)
  else if str_eqb l (lit "nan"%string) then Some S754_nan
  else None.

(** The numeral after the surrounding whitespace is gone: an optional
    sign, then a decimal numeral or one of the special names. *)
Definition float_from_ascii (s : str) : option float :=
  let '(neg, r) :=
    match s with
    | c :: r' =>
        if c =? c_minus then (true, r')
        else if c =? c_plus then (false, r') else (false, s)
    | [] => (false, s)
    end in
  match parse_decimal neg r with
  | Some v => Some v
  | None => parse_inf_or_nan neg r
  end.

(** [float(s)] for a [str]; [None] stands for [ValueError]. *)
Definition py_float (s : str) : option float :=
  match remove_underscores (to_ascii s) with
  | None => None
  | Some t => float_from_ascii (ascii_strip t)
  end.

(** Neither a minus sign nor the letter n, in either case. *)
Definition signless (a : char) : bool :=
  negb (a =? c_minus) && negb (lower a =? 110).

End PyFloat.

Import PyStr PyFloat.

(* ================================================================== *)
(** * parse_price (lines 44-82) *)
(* ================================================================== *)

Local Open Scope N_scope.

(** The characters the pattern [[^\d,.\s]] leaves in place. *)
Definition kept (c : char) : bool :=
  isdecimal c || (c =? c_comma) || (c =? c_dot) || isspace c.

(** [re.sub(r"[^\d,.\s]", "", s)]. *)
Definition re_sub_non_price (s : str) : str := filter kept s.

(** Lines 48-51: strip, drop every other character, strip again and
    delete the spaces. *)
Definition clean (text : str) : str :=
  let s := strip text in
  let s := strip (re_sub_non_price s) in
  replace c_space [] s.

(** Lines 54-77: the choice of the decimal separator. *)
Definition disambiguate (s : str) : str :=
  if contains c_comma s && contains c_dot s then
    if (rfind c_comma s >? rfind c_dot s)%Z then
      let s := replace c_dot [] s in
      replace c_comma [c_dot] s
    else
      replace c_comma [] s
  else
    let s :=
      if contains c_comma s && negb (contains c_dot s) then
        if (1 <? count c_comma s)%nat then
          let parts := split c_comma s in
          join_empty (all_but_last parts) ++ [c_dot] ++ last_part parts
        else
          replace c_comma [c_dot] s
      else s in
    if contains c_dot s then
      if (1 <? count c_dot s)%nat then
        let parts := split c_dot s in
        join_empty (all_but_last parts) ++ [c_dot] ++ last_part parts
      else s
    else s.

(** [parse_price(text)]; the argument [None] is Python's [None], and so
    is the result [None]. *)
Definition parse_price (text : option str) : option float :=
  match text with
  | None => None
  | Some text => py_float (disambiguate (clean text))
  end.

(** ** The rules of the specification, in its own words *)

Definition is_separator (c : char) : bool := (c =? c_comma) || (c =? c_dot).

(** The separator that occurs last in the string. *)
Definition last_separator (s : str) : option char :=
  find is_separator (rev s).

Definition other_separator (d : char) : char :=
  if d =? c_comma then c_dot else c_comma.

(** Rule for both separators: the one that occurs last is the decimal
    point; every occurrence of the other one is deleted, then the
    decimal separator is replaced by a dot. *)
Definition last_separator_rule (s : str) : str :=
  match last_separator s with
  | Some d => replace d [c_dot] (replace (other_separator d) [] s)
  | None => s
  end.

(** Rule for a repeated separator: every occurrence but the last is
    deleted. *)
Fixpoint delete_all_but_last (c : char) (s : str) : str :=
  match s with
  | [] => []
  | x :: s' =>
      if (x =? c) && contains c s' then delete_all_but_last c s'
      else x :: delete_all_but_last c s'
  end.

(** A plain decimal numeral: the digits [ip], then, when [fp] is not
    empty, a point and the digits [fp]. *)
Definition plain_decimal (ip fp : str) : str :=
  ip ++ match fp with [] => [] | _ :: _ => c_dot :: fp end.

Definition digit_values (s : str) : list N :=
  List.map (fun c => c - c_zero) s.

(** A digit or the decimal point. *)
Definition numeral_char (c : char) : bool := ascii_digit c || (c =? c_dot).

(** The string with every whitespace character deleted. *)
Definition delete_whitespace (s : str) : str :=
  filter (fun c => negb (isspace c)) s.

(** ** Python's rendering of a float *)

(** [repr(x)], which is also [str(x)], of a finite float x >= 0
    (float_repr, format code 'r'). The conversion yields decimal digits
    [ds] and the position [decpt] of the point, the value being
    0.ds * 10^decpt; the layout is positional when -4 < decpt <= 16 and
    has an exponent otherwise. *)
Definition zeros (n : nat) : str := repeat c_zero n.

Fixpoint uint_digits (u : Decimal.uint) : str :=
  match u with
  | Decimal.Nil => []
  | Decimal.D0 u => 48 :: uint_digits u
  | Decimal.D1 u => 49 :: uint_digits u
  | Decimal.D2 u => 50 :: uint_digits u
  | Decimal.D3 u => 51 :: uint_digits u
  | Decimal.D4 u => 52 :: uint_digits u
  | Decimal.D5 u => 53 :: uint_digits u
  | Decimal.D6 u => 54 :: uint_digits u
  | Decimal.D7 u => 55 :: uint_digits u
  | Decimal.D8 u => 56 :: uint_digits u
  | Decimal.D9 u => 57 :: uint_digits u
  end.

(** The exponent is printed with two digits at least ("%+.02d"). *)
Definition exponent_digits (n : N) : str :=
  match uint_digits (N.to_uint n) with
  | [d] => [c_zero; d]
  | ds => ds
  end.

Definition repr_layout (ds : str) (decpt : Z) : str :=
  let n := Z.of_nat (length ds) in
  if ((decpt <=? -4) || (16 <? decpt))%Z then
    let e := (decpt - 1)%Z in
    firstn 1 ds ++
    match skipn 1 ds with [] => [] | r => c_dot :: r end ++
    [101; if (e <? 0)%Z then c_minus else c_plus] ++
    exponent_digits (Z.to_N (Z.abs e))
  else if (decpt <=? 0)%Z then
    c_zero :: c_dot :: zeros (Z.to_nat (- decpt)) ++ ds
  else if (decpt <? n)%Z then
    firstn (Z.to_nat decpt) ds ++ c_dot :: skipn (Z.to_nat decpt) ds
  else
    ds ++ zeros (Z.to_nat (decpt - n)) ++ [c_dot; c_zero].

(** [s] is the rendering of [v], with the point at [decpt]: the digits
    are the fewest that [float] reads back as [v] (the round trip that
    [repr] guarantees), without a leading zero, zero being "0.0". *)
Definition py_repr_of (v : float) (decpt : Z) (s : str) : Prop :=
  exists ds : str,
    ds <> [] /\ forallb ascii_digit ds = true /\
    (hd c_zero ds <> c_zero \/ (ds = [c_zero] /\ decpt = 1%Z)) /\
    s = repr_layout ds decpt /\
    py_float s = Some v /\
    forall (ds' : str) (decpt' : Z),
      ds' <> [] -> forallb ascii_digit ds' = true ->
      py_float (repr_layout ds' decpt') = Some v ->
      (length ds <= length ds')%nat.

(** Some binary64 values, as sign, mantissa and binary exponent. *)
Definition f_1234_56 : float := S754_finite false 5429652300748554 (-42).
Definition f_1234567 : float := S754_finite false 5302424889720832 (-32).
Definition f_1234_567 : float := S754_finite false 5429683087074132 (-42).
Definition f_12_5 : float := S754_finite false 7036874417766400 (-49).
Definition f_12 : float := S754_finite false 6755399441055744 (-49).
Definition f_2500 : float := S754_finite false 5497558138880000 (-41).
Definition f_0_5 : float := S754_finite false 4503599627370496 (-53).
Definition f_1e16 : float := S754_finite false 5000000000000000 1.

(* ================================================================== *)
(** * The watcher (lines 84-160) *)
(* ================================================================== *)

(** A numeric value of the YAML configuration: an [int] or a [float]. *)
Inductive Num :=
  | NInt (z : Z)
  | NFloat (f : float).

(** [float(target)]; [None] stands for [OverflowError]. *)
Definition float_of_num (t : Num) : option float :=
  match t with
  | NInt z => of_int z
  | NFloat f => Some f
  end.

(** One entry of [products] in products.yaml. *)
Record Product := {
  p_name : option str;
  p_url : str;
  p_selector : str;
  p_target_price : option Num
}.

(** The loaded configuration; an empty document loads as [{}], with no
    [products] key. *)
Record Config := { cfg_products : option (list Product) }.

(** One row of the table [price_history]; the autoincremented id of a
    row is its position in the table. *)
Record Observation := {
  o_timestamp : str;
  o_name : str;
  o_url : str;
  o_price : option float;
  o_target : option Num;
  o_selector : str;
  o_status : str
}.

(** The lines the program prints, by the f-string that renders them. *)
Inductive Line :=
  | ConfigNotFound                       (* "Config not found: ..." *)
  | NoProducts                           (* "No products in config." *)
  | ErrorLine (name status url : str)    (* "[name] ERROR: status (url)" *)
  | InfoLine (name : str) (price : option float) (target : option Num)
             (url : str)                 (* "[name] current=.. target=.. (url)" *)
  | AlertLine (price : option float) (target : option Num)
                                         (* "  ALERT: price .. <= target .." *)
  | NoAlerts.                            (* "No alerts this run." *)

Inductive Exn :=
  | OperationalError          (* sqlite3: no such table *)
  | OverflowError             (* an int too large, for SQLite or for float() *)
  | ParserError (name : str). (* raised by BeautifulSoup or by select_one,
                                 for instance SelectorSyntaxError *)

Inductive Outcome (A : Type) :=
  | Returned (a : A)
  | Exited (code : Z)     (* sys.exit(code) *)
  | Raised (e : Exn).

Arguments Returned {A} a.
Arguments Exited {A} code.
Arguments Raised {A} e.

(** The effects of a run on the outside, one event each. *)
Inductive Event :=
  | Requested (url : str)      (* a GET was sent *)
  | Inserted (o : Observation) (* a row was inserted and committed *)
  | Printed (l : Line)         (* a line went to stdout *)
  | PrintedErr (l : Line).     (* a line went to stderr *)

(** What a run can read and change. *)
Record World := {
  config_file : option Config;               (* None: no products.yaml *)
  price_history : option (list Observation); (* None: no such table *)
  requests : list str;                       (* the GETs sent so far *)
  clock : nat;                               (* reads of the clock *)
  stdout : list Line;
  stderr : list Line;
  events : list Event                        (* the effects so far, in the
                                                order they happened *)
}.

Definition rows (w : World) : list Observation :=
  match price_history w with Some r => r | None => [] end.

Definition set_price_history (h : option (list Observation)) (w : World) :=
  {| config_file := config_file w; price_history := h;
     requests := requests w; clock := clock w;
     stdout := stdout w; stderr := stderr w; events := events w |}.

Definition set_requests (r : list str) (w : World) :=
  {| config_file := config_file w; price_history := price_history w;
     requests := r; clock := clock w;
     stdout := stdout w; stderr := stderr w; events := events w |}.

Definition set_clock (c : nat) (w : World) :=
  {| config_file := config_file w; price_history := price_history w;
     requests := requests w; clock := c;
     stdout := stdout w; stderr := stderr w; events := events w |}.

Definition set_stdout (o : list Line) (w : World) :=
  {| config_file := config_file w; price_history := price_history w;
     requests := requests w; clock := clock w;
     stdout := o; stderr := stderr w; events := events w |}.

Definition set_stderr (o : list Line) (w : World) :=
  {| config_file := config_file w; price_history := price_history w;
     requests := requests w; clock := clock w;
     stdout := stdout w; stderr := o; events := events w |}.

Definition log (ev : Event) (w : World) :=
  {| config_file := config_file w; price_history := price_history w;
     requests := requests w; clock := clock w;
     stdout := stdout w; stderr := stderr w; events := events w ++ [ev] |}.

(** Computations that read and change the world and may stop early. *)
Definition M (A : Type) : Type := World -> Outcome A * World.

Definition ret {A} (a : A) : M A := fun w => (Returned a, w).

Definition bind {A B} (m : M A) (k : A -> M B) : M B :=
  fun w =>
    match m w with
    | (Returned a, w') => k a w'
    | (Exited c, w') => (Exited c, w')
    | (Raised e, w') => (Raised e, w')
    end.

Declare Scope watch_scope.
Delimit Scope watch_scope with watch.
Notation "x <- m ;; k" := (bind m (fun x => k))
  (at level 61, m at next level, right associativity) : watch_scope.
Notation "' p <- m ;; k" := (bind m (fun x => match x with p => k end))
  (at level 61, p pattern, m at next level, right associativity) : watch_scope.
Notation "m ;; k" := (bind m (fun _ => k))
  (at level 61, right associativity) : watch_scope.
Local Open Scope watch_scope.

Definition sys_exit {A} (code : Z) : M A := fun w => (Exited code, w).
Definition raise {A} (e : Exn) : M A := fun w => (Raised e, w).

Definition print (l : Line) : M unit :=
  fun w => (Returned tt, log (Printed l) (set_stdout (stdout w ++ [l]) w)).

Definition eprint (l : Line) : M unit :=
  fun w => (Returned tt, log (PrintedErr l) (set_stderr (stderr w ++ [l]) w)).

Definition status_ok : str := lit "ok"%string.
Definition status_selector_not_found : str := lit "selector_not_found"%string.
Definition status_parse_failed : str := lit "parse_failed"%string.
Definition status_fetch_error (e : str) : str := lit "fetch_error: "%string ++ e.

(** [p.get("name") or p.get("url")]: an absent or empty name gives way
    to the URL. *)
Definition display_name (p : Product) : str :=
  match p_name p with
  | Some (c :: n) => c :: n
  | _ => p_url p
  end.

(** SQLite stores an integer in 64 bits, signed. *)
Definition int64 (z : Z) : bool := ((- 2 ^ 63 <=? z) && (z <? 2 ^ 63))%Z.

(** The values of [target] that sqlite3 binds to a parameter of the
    INSERT: None, a float, or an int that fits 64 bits. For any other
    int the binding raises OverflowError ("Python int too large to
    convert to SQLite INTEGER") and no row is inserted. *)
Definition bindable (target : option Num) : bool :=
  match target with
  | Some (NInt z) => int64 z
  | _ => true
  end.

(** The status is ok, the target is present and price <= target. *)
Definition alerting (o : Observation) : bool :=
  str_eqb (o_status o) status_ok &&
  match o_target o, o_price o with
  | Some t, Some pr =>
      match float_of_num t with Some tf => le pr tf | None => false end
  | _, _ => false
  end.

(** The lines printed for one product. *)
Definition report_lines (o : Observation) : list Line :=
  if negb (str_eqb (o_status o) status_ok) then
    [ErrorLine (o_name o) (o_status o) (o_url o)]
  else
    InfoLine (o_name o) (o_price o) (o_target o) (o_url o)
    :: (if alerting o then [AlertLine (o_price o) (o_target o)] else []).

(** The effects of one check that runs to its end, in order: the GET,
    the INSERT of the row, then the lines about the product. *)
Definition row_events (o : Observation) : list Event :=
  Requested (o_url o) :: Inserted o :: List.map Printed (report_lines o).

(** The row carries the product's own name, URL, selector and target. *)
Definition records_for (p : Product) (o : Observation) : Prop :=
  o_name o = display_name p /\ o_url o = p_url p /\
  o_selector o = p_selector p /\ o_target o = p_target_price p.

(** The price is present exactly when the status is ok. *)
Definition price_iff_ok (o : Observation) : Prop :=
  o_price o <> None <-> o_status o = status_ok.

(** The status is one of the four kinds. *)
Definition known_status (st : str) : Prop :=
  st = status_ok \/ st = status_selector_not_found \/
  st = status_parse_failed \/ exists e, st = status_fetch_error e.

(** The only line that reports on the run as a whole. *)
Definition is_summary (l : Line) : bool :=
  match l with NoAlerts => true | _ => false end.

(** The world once a GET to [url] has been sent. *)
Definition after_get (url : str) (w : World) : World :=
  log (Requested url) (set_requests (requests w ++ [url]) w).

(** The world after a check of [p] that ran to its end and recorded [o]:
    one GET, one reading of the clock, one row and the product's lines. *)
Definition after_check (p : Product) (o : Observation)
    (r : list Observation) (w : World) : World :=
  {| config_file := config_file w;
     price_history := Some (r ++ [o]);
     requests := requests w ++ [p_url p];
     clock := S (clock w);
     stdout := stdout w ++ report_lines o;
     stderr := stderr w;
     events := events w ++ Requested (p_url p) :: Inserted o
                        :: List.map Printed (report_lines o) |}.

Module Watch.

Section Watcher.

(** The collaborators: the network, the HTML parser and the clock.
    [http_get k url] is the outcome of the [k]-th GET of the process:
    the text of a successful response, or the message of the
    [RequestException]. [select_one markup selector] stands for lines
    119-120, [BeautifulSoup(markup, "html.parser").select_one(selector)]:
    the first element that matches, None when nothing matches, or the
    exception that the parser or the selector raised (an invalid
    selector raises SelectorSyntaxError). [get_text] is the text of an
    element by [get_text(strip=True)], and [utcnow k] the ISO rendering
    of the [k]-th reading of the clock. *)
Variable http_get : nat -> str -> str + str.
Variable Tag : Type.
Variable select_one : str -> str -> Exn + option Tag.
Variable get_text : Tag -> str.
Variable utcnow : nat -> str.

(** [requests.get(url, ...)] followed by [raise_for_status()]. *)
Definition requests_get (url : str) : M (str + str) :=
  fun w => (Returned (http_get (length (requests w)) url), after_get url w).

Definition now_isoformat : M str :=
  fun w => (Returned (utcnow (clock w)), set_clock (S (clock w)) w).

(** Lines 84-100: CREATE TABLE IF NOT EXISTS. *)
Definition ensure_db : M unit :=
  fun w =>
    match price_history w with
    | Some _ => (Returned tt, w)
    | None => (Returned tt, set_price_history (Some []) w)
    end.

(** Lines 102-111: one INSERT. The tuple of parameters, with the reading
    of the clock, is built first; the statement fails without the table,
    and the binding of [target] fails for an int beyond 64 bits, before
    any row is inserted. *)
Definition record (name url : str) (price : option float)
    (target : option Num) (selector status : str) : M unit :=
  ts <- now_isoformat ;;
  fun w =>
    match price_history w with
    | None => (Raised OperationalError, w)
    | Some r =>
        if bindable target then
          let o := {| o_timestamp := ts; o_name := name; o_url := url;
                      o_price := price; o_target := target;
                      o_selector := selector; o_status := status |} in
          (Returned tt,
           log (Inserted o) (set_price_history (Some (r ++ [o])) w))
        else (Raised OverflowError, w)
    end.

(** Lines 113-126. Only the request is inside the [try]: an exception of
    the parser or of the selector leaves [fetch_price]. *)
Definition fetch_price (url selector : str) : M (option float * str) :=
  r <- requests_get url ;;
  match r with
  | inl e => ret (None, status_fetch_error e)
  | inr text =>
      match select_one text selector with
      | inl exn => raise exn
      | inr None => ret (None, status_selector_not_found)
      | inr (Some el) =>
          match parse_price (Some (get_text el)) with
          | None => ret (None, status_parse_failed)
          | Some price => ret (Some price, status_ok)
          end
      end
  end.

(** Lines 142-157: the loop over the products, from the value
    [any_alerts] has on entry to the value it has on exit. *)
Fixpoint check_products (products : list Product) (any_alerts : bool)
  : M bool :=
  match products with
  | [] => ret any_alerts
  | p :: rest =>
      let name := display_name p in
      let url := p_url p in
      let selector := p_selector p in
      let target := p_target_price p in
      '(price, status) <- fetch_price url selector ;;
      record name url price target selector status ;;
      if negb (str_eqb status status_ok) then
        print (ErrorLine name status url) ;;
        check_products rest any_alerts
      else
        print (InfoLine name price target url) ;;
        match target, price with
        | Some t, Some pr =>
            match float_of_num t with
            | None => raise OverflowError
            | Some tf =>
                if le pr tf then
                  print (AlertLine price target) ;;
                  check_products rest true
                else check_products rest any_alerts
            end
        | _, _ => check_products rest any_alerts
        end
  end.

(** Lines 128-160. *)
Definition run_once : M unit :=
  ensure_db ;;
  fun w =>
    match config_file w with
    | None => (eprint ConfigNotFound ;; sys_exit 1) w
    | Some cfg =>
        let products :=
          match cfg_products cfg with Some ps => ps | None => [] end in
        match products with
        | [] => (eprint NoProducts ;; sys_exit 1) w
        | _ :: _ =>
            (any_alerts <- check_products products false ;;
             if negb any_alerts then print NoAlerts else ret tt) w
        end
    end.

(** ** What one check records and reports, as pure functions *)

(** What [fetch_price] does when its GET is the [k]-th: the exception it
    raises, or the pair it returns. *)
Definition fetch_result (k : nat) (url selector : str)
  : Exn + (option float * str) :=
  match http_get k url with
  | inl e => inr (None, status_fetch_error e)
  | inr text =>
      match select_one text selector with
      | inl exn => inl exn
      | inr None => inr (None, status_selector_not_found)
      | inr (Some el) =>
          match parse_price (Some (get_text el)) with
          | None => inr (None, status_parse_failed)
          | Some price => inr (Some price, status_ok)
          end
      end
  end.

(** The row recorded for product [p] when [fetch_price] returned [r] and
    [c] readings of the clock came before. *)
Definition observation_of (c : nat) (p : Product) (r : option float * str)
  : Observation :=
  {| o_timestamp := utcnow c; o_name := display_name p; o_url := p_url p;
     o_price := fst r; o_target := p_target_price p;
     o_selector := p_selector p; o_status := snd r |}.

(** The parser accepts the selector: on no page does the selection
    raise. *)
Definition selector_ok (selector : str) : Prop :=
  forall text e, select_one text selector <> inl e.

End Watcher.

End Watch.

Import Watch.

(** ** A concrete shop, for the runs used as examples *)

Module Scenario.

Definition url_laptop : str := lit "https://shop.example/laptop"%string.
Definition url_down : str := lit "https://shop.example/down"%string.
Definition sel_price : str := lit "span.price"%string.
Definition sel_label : str := lit "span.label"%string.
Definition sel_none : str := lit "span.none"%string.
Definition sel_bad : str := lit "span["%string.
Definition page : str := lit "<html>...</html>"%string.

(** Every URL answers with [page], except [url_down], which times out. *)
Definition http_get (k : nat) (url : str) : str + str :=
  if str_eqb url url_down then inl (lit "timed out"%string) else inr page.

(** An element is known by its text. *)
Definition Tag : Type := str.

Definition select_one (markup selector : str) : Exn + option Tag :=
  if str_eqb selector sel_price then inr (Some (lit "US$ 2.500,00"%string))
  else if str_eqb selector sel_label then inr (Some (lit "sold out"%string))
  else if str_eqb selector sel_bad
       then inl (ParserError (lit "SelectorSyntaxError"%string))
  else inr None.

Definition get_text (el : Tag) : str := el.

Definition utcnow (k : nat) : str := lit "2024-05-01T12:00:00+00:00"%string.

Definition product (name : String.string) (url selector : str)
    (target : option Z) : Product :=
  {| p_name := Some (lit name); p_url := url; p_selector := selector;
     p_target_price := option_map NInt target |}.

Definition laptop_3000 := product "laptop"%string url_laptop sel_price (Some 3000%Z).
Definition laptop_2000 := product "laptop"%string url_laptop sel_price (Some 2000%Z).
Definition down := product "down"%string url_down sel_price None.
Definition missing := product "missing"%string url_laptop sel_none (Some 10%Z).
Definition label := product "label"%string url_laptop sel_label None.

(** A product whose integer target does not fit 64 bits, and one whose
    selector the parser rejects. *)
Definition laptop_huge :=
  product "laptop"%string url_laptop sel_price (Some (2 ^ 63)%Z).
Definition broken := product "broken"%string url_laptop sel_bad None.

Definition all_products : list Product :=
  [laptop_3000; down; missing; label; laptop_2000].

(** A first run: there is no table yet. *)
Definition world (cfg : option Config) : World :=
  {| config_file := cfg; price_history := None; requests := [];
     clock := 0; stdout := []; stderr := []; events := [] |}.

Definition world_with (ps : list Product) : World :=
  world (Some {| cfg_products := Some ps |}).

Definition run_once := Watch.run_once http_get select_one get_text utcnow.
Definition check_products :=
  Watch.check_products http_get select_one get_text utcnow.

End Scenario.

(** ** Vocabulary for further properties *)

(** What [to_ascii] makes of the characters that line 50 keeps: a
    digit, a comma, a dot or ASCII whitespace. *)
Definition price_ascii (a : char) : bool :=
  ascii_digit a || (a =? c_comma) || (a =? c_dot) ||
  ((9 <=? a) && (a <=? 13)) || ((28 <=? a) && (a <=? 32)).

(** Commas and dots exchanged. *)
Definition swap_separator (c : char) : char :=
  if c =? c_comma then c_dot else if c =? c_dot then c_comma else c.

Definition swap_separators (s : str) : str := List.map swap_separator s.

(** The digit groups of a number, joined by the separator [sep]. *)
Fixpoint grouped (sep : char) (groups : list str) : str :=
  match groups with
  | [] => []
  | [g] => g
  | g :: rest => g ++ sep :: grouped sep rest
  end.

(* ================================================================== *)
(** * Facts about the watcher *)
(* ================================================================== *)

Lemma str_eqb_eq (a b : str) : str_eqb a b = true <-> a = b.
Proof.
  unfold str_eqb. destruct (list_eq_dec N.eq_dec a b); split; congruence.
Qed.

Lemma str_eqb_refl (a : str) : str_eqb a a = true.
Proof. now apply str_eqb_eq. Qed.

Lemma fetch_error_not_ok (e : str) : str_eqb (status_fetch_error e) status_ok = false.
Proof.
  destruct (str_eqb (status_fetch_error e) status_ok) eqn:E; [|reflexivity].
  apply str_eqb_eq in E. discriminate E.
Qed.

(** ** [float(target)] after [record] *)

Module IntFacts.

Local Open Scope Z_scope.

Definition not_infinite (f : float) : Prop :=
  match f with S754_infinity _ => False | _ => True end.

Lemma digits2_pos_size (p : positive) : digits2_pos p = Pos.size p.
Proof. induction p; cbn; congruence. Qed.

Lemma pos_lt_pow_size (p : positive) : Z.pos p < 2 ^ Z.pos (Pos.size p).
Proof.
  pose proof (Pos.size_gt p) as H.
  apply Pos2Z.pos_lt_pos in H. now rewrite Pos2Z.inj_pow in H.
Qed.

Lemma Zdigits2_le (m n : Z) : 0 <= m < 2 ^ n -> 0 <= n -> Zdigits2 m <= n.
Proof.
  intros [H0 Hm] Hn. destruct m as [|p|p]; [exact Hn | | lia].
  cbn [Zdigits2]. rewrite digits2_pos_size.
  pose proof (Pos.size_le p) as H.
  apply Pos2Z.pos_le_pos in H. rewrite Pos2Z.inj_pow in H.
  destruct (Z.le_gt_cases (Z.pos (Pos.size p)) n) as [L|G]; [exact L|].
  assert (Hp : 2 ^ (n + 1) <= 2 ^ Z.pos (Pos.size p))
    by (apply Z.pow_le_mono_r; lia).
  rewrite Z.pow_add_r in Hp by lia. lia.
Qed.

Lemma iter_xO (k p : positive) :
  Z.pos (Pos.iter xO p k) = Z.pos p * 2 ^ Z.pos k.
Proof.
  induction k as [|k IH] using Pos.peano_ind.
  - cbn. lia.
  - rewrite Pos.iter_succ, Pos2Z.inj_xO, IH, Pos2Z.inj_succ, Z.pow_succ_r by lia.
    lia.
Qed.

(** A shift to the right does not make the mantissa larger. *)
Lemma shr_1_le (mrs : shr_record) :
  0 <= shr_m mrs -> 0 <= shr_m (shr_1 mrs) <= shr_m mrs.
Proof.
  destruct mrs as [m r s]. cbn [shr_m]. intros H.
  destruct m as [|[p|p|]|p]; cbn; lia.
Qed.

Lemma iter_pos_shr_1_le (n : positive) :
  forall mrs, 0 <= shr_m mrs ->
  0 <= shr_m (iter_pos shr_1 n mrs) <= shr_m mrs.
Proof.
  induction n as [n IH|n IH|]; intros mrs H; cbn [iter_pos].
  - pose proof (shr_1_le mrs H) as H1.
    pose proof (IH _ (proj1 H1)) as H2.
    pose proof (IH _ (proj1 H2)) as H3. lia.
  - pose proof (IH _ H) as H2.
    pose proof (IH _ (proj1 H2)) as H3. lia.
  - now apply shr_1_le.
Qed.

Lemma shr_fexp_le (m e : Z) (l : location) :
  0 <= m -> 0 <= shr_m (fst (shr_fexp prec emax m e l)) <= m.
Proof.
  intros H. unfold shr_fexp, shr.
  assert (Hm : shr_m (shr_record_of_loc m l) = m)
    by (destruct l as [|[]]; reflexivity).
  destruct (fexp prec emax (Zdigits2 m + e) - e) as [|n|n]; cbn [fst];
    try (rewrite Hm; lia).
  pose proof (@iter_pos_shr_1_le n (shr_record_of_loc m l)) as Hi.
  rewrite Hm in Hi. now apply Hi.
Qed.

Lemma shr_fexp_exponent (m e : Z) (l : location) :
  snd (shr_fexp prec emax m e l) <=
  Z.max e (fexp prec emax (Zdigits2 m + e)).
Proof.
  unfold shr_fexp, shr.
  destruct (fexp prec emax (Zdigits2 m + e) - e) eqn:E; cbn [snd]; lia.
Qed.

Lemma round_nearest_even_le (m : Z) (l : location) :
  0 <= m -> 0 <= round_nearest_even m l <= m + 1.
Proof.
  intros H. unfold round_nearest_even.
  destruct l as [|[]]; try lia. destruct (Z.even m); lia.
Qed.

(** Rounding a mantissa below 2^64 with an exponent of at most zero stays
    far from the largest exponent. *)
Lemma binary_round_aux_finite (s : bool) (m e : Z) (l : location) :
  0 <= m < 2 ^ 64 -> e <= 0 ->
  not_infinite (binary_round_aux prec emax s m e l).
Proof.
  intros Hm He. unfold binary_round_aux.
  pose proof (@shr_fexp_le m e l (proj1 Hm)) as H1.
  pose proof (shr_fexp_exponent m e l) as E1.
  destruct (shr_fexp prec emax m e l) as [mrs' e']. cbn [fst snd] in *.
  pose proof (@round_nearest_even_le (shr_m mrs') (loc_of_shr_record mrs')
                (proj1 H1)) as Hr.
  set (m1 := round_nearest_even (shr_m mrs') (loc_of_shr_record mrs')) in *.
  pose proof (shr_fexp_exponent m1 e' loc_Exact) as E2.
  destruct (shr_fexp prec emax m1 e' loc_Exact) as [mrs'' e''].
  cbn [fst snd] in *.
  assert (D0 : Zdigits2 m <= 64) by (apply Zdigits2_le; lia).
  assert (D1 : Zdigits2 m1 <= 65).
  { apply Zdigits2_le; [|lia]. change (2 ^ 65) with (2 * 2 ^ 64). lia. }
  unfold fexp, emin, prec, emax in *.
  destruct (shr_m mrs''); [exact I | | exact I].
  destruct (e'' <=? 1024 - 53) eqn:El; [exact I|].
  apply Z.leb_gt in El. lia.
Qed.

Lemma binary_round_finite (s : bool) (p : positive) :
  Z.pos p < 2 ^ 64 -> not_infinite (binary_round prec emax s p 0).
Proof.
  intros Hp. unfold binary_round, shl_align.
  pose proof (pos_lt_pow_size p) as Hs. rewrite <- digits2_pos_size in Hs.
  set (d := Z.pos (digits2_pos p)) in *.
  assert (Hd : 0 < d) by (unfold d; lia).
  unfold fexp, emin, prec, emax.
  destruct (Z.max (d + 0 - 53) (3 - 1024 - 53) - 0) as [|k|k] eqn:E.
  - apply binary_round_aux_finite; lia.
  - apply binary_round_aux_finite; lia.
  - apply binary_round_aux_finite; [|lia].
    rewrite iter_xO. split; [lia|].
    assert (Hk : Z.pos k = 53 - d) by lia.
    rewrite Hk.
    assert (Hlt : Z.pos p * 2 ^ (53 - d) < 2 ^ d * 2 ^ (53 - d)).
    { apply Z.mul_lt_mono_pos_r; [|exact Hs]. apply Z.pow_pos_nonneg; lia. }
    rewrite <- Z.pow_add_r in Hlt by lia.
    replace (d + (53 - d)) with 53 in Hlt by lia.
    assert (2 ^ 53 < 2 ^ 64) by (apply Z.pow_lt_mono_r; lia). lia.
Qed.

(** [float(n)] does not raise for an integer that SQLite can store. *)
Lemma of_int_int64 (z : Z) : int64 z = true -> of_int z <> None.
Proof.
  unfold int64. intros H. apply andb_true_iff in H.
  destruct H as [Hl Hu]. apply Z.leb_le in Hl. apply Z.ltb_lt in Hu.
  assert (H64 : 2 ^ 64 = 2 * 2 ^ 63) by reflexivity.
  unfold of_int, binary_normalize.
  destruct z as [|p|p].
  - discriminate.
  - pose proof (@binary_round_finite false p) as F.
    destruct (binary_round prec emax false p 0); try discriminate.
    exfalso. apply F. lia.
  - pose proof (@binary_round_finite true p) as F.
    destruct (binary_round prec emax true p 0); try discriminate.
    exfalso. apply F. lia.
Qed.

End IntFacts.

(** A target that [record] could bind is one [float] can convert: in a
    run, [float(target)] comes after [record] and cannot raise. *)
Lemma float_of_num_bindable (t : Num) :
  bindable (Some t) = true -> float_of_num t <> None.
Proof.
  destruct t as [z|f]; cbn [bindable float_of_num]; [|discriminate].
  apply IntFacts.of_int_int64.
Qed.

Lemma bindable_false (t : option Num) :
  bindable t = false -> exists z, t = Some (NInt z) /\ int64 z = false.
Proof.
  destruct t as [[z|f]|]; cbn [bindable]; try discriminate.
  intros H. now exists z.
Qed.

Lemma firstn_S_nth (A : Type) (l : list A) (n : nat) (x : A) :
  nth_error l n = Some x -> firstn (S n) l = firstn n l ++ [x].
Proof.
  revert n. induction l as [|a l IH]; intros [|n] H; try discriminate H.
  - cbn in H. injection H as ->. reflexivity.
  - cbn [nth_error] in H. cbn [firstn app]. f_equal. now apply IH.
Qed.

Section WatcherFacts.

Variable http_get : nat -> str -> str + str.
Variable Tag : Type.
Variable select_one : str -> str -> Exn + option Tag.
Variable get_text : Tag -> str.
Variable utcnow : nat -> str.

Local Abbreviation fetch_price := (fetch_price http_get select_one get_text).
Local Abbreviation fetch_result := (fetch_result http_get select_one get_text).
Local Abbreviation observation_of := (observation_of utcnow).
Local Abbreviation check_products :=
  (check_products http_get select_one get_text utcnow).
Local Abbreviation run_once := (run_once http_get select_one get_text utcnow).
Local Abbreviation selector_ok := (selector_ok select_one).

Lemma fetch_price_eq (url selector : str) (w : World) :
  fetch_price url selector w =
  (match fetch_result (length (requests w)) url selector with
   | inl e => Raised e
   | inr r => Returned r
   end, after_get url w).
Proof.
  unfold Watch.fetch_price, Watch.fetch_result, bind, requests_get, ret, raise.
  destruct (http_get (length (requests w)) url) as [e|text]; [reflexivity|].
  destruct (select_one text selector) as [exn|[el|]]; try reflexivity.
  destruct (parse_price (Some (get_text el))); reflexivity.
Qed.

(** [fetch_price] raises exactly when the page came and the selection
    raised on it. *)
Lemma fetch_result_raises (k : nat) (url selector : str) (e : Exn) :
  fetch_result k url selector = inl e <->
  exists text, http_get k url = inr text /\ select_one text selector = inl e.
Proof.
  unfold Watch.fetch_result.
  destruct (http_get k url) as [m|text].
  - split; [discriminate | intros (t & H & _); discriminate H].
  - destruct (select_one text selector) as [exn|[el|]] eqn:Es.
    + split.
      * intros [= <-]. now exists text.
      * intros (t & [= <-] & H). congruence.
    + split; [|intros (t & [= <-] & H); congruence].
      destruct (parse_price (Some (get_text el))); discriminate.
    + split; [discriminate | intros (t & [= <-] & H); congruence].
Qed.

Lemma fetch_result_price_iff_ok (k : nat) (url selector : str)
    (r : option float * str) :
  fetch_result k url selector = inr r -> fst r <> None <-> snd r = status_ok.
Proof.
  unfold Watch.fetch_result.
  destruct (http_get k url) as [e|text].
  - intros [= <-]. cbn [fst snd]. split; [congruence|]. intros H. discriminate H.
  - destruct (select_one text selector) as [exn|[el|]]; [discriminate| |].
    + destruct (parse_price (Some (get_text el))); intros [= <-]; cbn [fst snd].
      * split; [reflexivity | discriminate].
      * split; [congruence | discriminate].
    + intros [= <-]. cbn [fst snd]. split; [congruence | discriminate].
Qed.

Lemma fetch_result_known_status (k : nat) (url selector : str)
    (r : option float * str) :
  fetch_result k url selector = inr r -> known_status (snd r).
Proof.
  unfold Watch.fetch_result, known_status.
  destruct (http_get k url) as [e|text].
  - intros [= <-]. cbn [snd]. eauto 6.
  - destruct (select_one text selector) as [exn|[el|]]; [discriminate| |].
    + destruct (parse_price (Some (get_text el))); intros [= <-]; cbn [snd];
        auto.
    + intros [= <-]. cbn [snd]. auto.
Qed.

Lemma fetch_result_selector_ok (k : nat) (url selector : str) :
  selector_ok selector ->
  exists r, fetch_result k url selector = inr r.
Proof.
  intros Hok.
  destruct (fetch_result k url selector) as [e|r] eqn:E; [|now exists r].
  apply fetch_result_raises in E. destruct E as (text & _ & H).
  now apply Hok in H.
Qed.

Lemma observation_of_records_for (c : nat) (p : Product)
    (r : option float * str) :
  records_for p (observation_of c p r).
Proof. repeat split. Qed.

(** One turn of the loop. *)
Lemma check_products_cons (p : Product) (rest : list Product) (b : bool)
    (w : World) (r : list Observation) :
  price_history w = Some r ->
  check_products (p :: rest) b w =
  match fetch_result (length (requests w)) (p_url p) (p_selector p) with
  | inl e => (Raised e, after_get (p_url p) w)
  | inr res =>
      let o := observation_of (clock w) p res in
      if bindable (p_target_price p) then
        check_products rest (b || alerting o) (after_check p o r w)
      else
        (Raised OverflowError,
         set_clock (S (clock w)) (after_get (p_url p) w))
  end.
Proof.
  intros Hr. destruct w as [cf ph rq ck so se ev]. cbn in Hr. subst ph.
  cbn [Watch.check_products].
  unfold bind at 1. rewrite fetch_price_eq.
  cbn [requests clock].
  destruct (fetch_result (length rq) (p_url p) (p_selector p))
    as [e|[price status]] eqn:Ef; [reflexivity|].
  cbv beta iota zeta delta
    [alerting report_lines Watch.observation_of after_check after_get
     o_status o_target o_price o_name o_url requests clock config_file
     price_history stdout stderr events set_requests log
     fst snd bind record now_isoformat print raise set_clock
     set_price_history set_stdout].
  destruct (bindable (p_target_price p)) eqn:Eb; [|reflexivity].
  destruct (str_eqb status status_ok) eqn:Eok; cbn [negb andb List.map].
  - destruct (p_target_price p) as [t|].
    + destruct price as [pr|].
      * destruct (float_of_num t) as [tf|] eqn:Et;
          [|now apply float_of_num_bindable in Eb].
        destruct (le pr tf).
        -- rewrite <- !app_assoc. cbn [app List.map]. now rewrite orb_true_r.
        -- rewrite <- !app_assoc. cbn [app List.map]. now rewrite orb_false_r.
      * rewrite <- !app_assoc. cbn [app]. now rewrite orb_false_r.
    + rewrite <- !app_assoc. cbn [app]. now rewrite orb_false_r.
  - rewrite <- !app_assoc. cbn [app]. now rewrite orb_false_r.
Qed.

(** Without the table the loop does not return. *)
Lemma check_products_no_table (p : Product) (rest : list Product) (b : bool)
    (w : World) :
  price_history w = None ->
  exists e, fst (check_products (p :: rest) b w) = Raised e.
Proof.
  intros Hr. destruct w as [cf ph rq ck so se ev]. cbn in Hr. subst ph.
  cbn [Watch.check_products]. unfold bind at 1. rewrite fetch_price_eq.
  destruct (fetch_result _ _ _) as [e|[price status]]; [now exists e|].
  now exists OperationalError.
Qed.

(** The whole loop: the rows it adds, the requests it sends, the lines
    it prints, the order of its effects and how it ends. [tail] holds
    the URL of the product whose check raised, if any: that product was
    requested and has no row. *)
Lemma check_products_run (ps : list Product) :
  forall (b : bool) (w : World) (r : list Observation),
  price_history w = Some r ->
  exists (new : list Observation) (tail : list str),
    let res := check_products ps b w in
    price_history (snd res) = Some (r ++ new) /\
    config_file (snd res) = config_file w /\
    stderr (snd res) = stderr w /\
    requests (snd res) = requests w ++ map o_url new ++ tail /\
    stdout (snd res) = stdout w ++ flat_map report_lines new /\
    events (snd res) =
      events w ++ flat_map row_events new ++ map Requested tail /\
    Forall2 records_for (firstn (length new) ps) new /\
    Forall price_iff_ok new /\
    Forall (fun o => known_status (o_status o)) new /\
    match fst res with
    | Returned b' =>
        length new = length ps /\ b' = b || existsb alerting new /\
        tail = []
    | Raised e =>
        exists p,
          nth_error ps (length new) = Some p /\ tail = [p_url p] /\
          (fetch_result (length (requests w) + length new)
             (p_url p) (p_selector p) = inl e \/
           (e = OverflowError /\ bindable (p_target_price p) = false))
    | Exited _ => False
    end.
Proof.
  induction ps as [|p rest IH]; intros b w r Hr.
  - exists [], []. cbn. rewrite !app_nil_r, orb_false_r. repeat split; auto.
  - cbv zeta. rewrite (check_products_cons p rest b w Hr).
    destruct (fetch_result (length (requests w)) (p_url p) (p_selector p))
      as [e|res] eqn:Ef.
    + exists [], [p_url p]. cbn. rewrite !app_nil_r.
      repeat split; auto.
      exists p. rewrite Nat.add_0_r. auto.
    + cbv zeta. set (o := observation_of (clock w) p res).
      destruct (bindable (p_target_price p)) eqn:Eb.
      * destruct (IH (b || alerting o) (after_check p o r w) (r ++ [o]) eq_refl)
          as (new & tail & H1 & H2 & H3 & H4 & H5 & H6 & H7 & H8 & H9 & H10).
        exists (o :: new), tail. cbv zeta in *.
        destruct (check_products rest (b || alerting o) (after_check p o r w))
          as [out w'].
        cbn [fst snd] in *. unfold after_check in *.
        rewrite H1, H2, H3, H4, H5, H6.
        cbn [config_file stderr requests stdout events map flat_map
             length firstn row_events] in *.
        change (o_url o) with (p_url p).
        rewrite <- !app_assoc. cbn [app].
        repeat split; auto.
        -- constructor; [apply observation_of_records_for | assumption].
        -- constructor; [|assumption].
           apply (fetch_result_price_iff_ok _ _ _ Ef).
        -- constructor; [|assumption].
           apply (fetch_result_known_status _ _ _ Ef).
        -- destruct out as [b'|c|e].
           ++ destruct H10 as (Hl & Hb & Ht). split; [now rewrite Hl|].
              split; [|exact Ht].
              cbn [existsb]. now rewrite Hb, orb_assoc.
           ++ exact H10.
           ++ destruct H10 as (q & Hq & Ht & Hwhy).
              exists q. cbn [nth_error]. split; [exact Hq|].
              split; [exact Ht|].
              rewrite length_app in Hwhy. cbn [length] in Hwhy.
              replace (length (requests w) + S (length new))%nat
                with (length (requests w) + 1 + length new)%nat by lia.
              exact Hwhy.
      * exists [], [p_url p]. cbn. rewrite !app_nil_r.
        repeat split; auto.
        exists p. auto.
Qed.

(** The loop runs to its end when the parser accepts every selector and
    every target can be stored. *)
Lemma check_products_returns (ps : list Product) :
  Forall (fun p => selector_ok (p_selector p) /\
                   bindable (p_target_price p) = true) ps ->
  forall (b : bool) (w : World) (r : list Observation),
  price_history w = Some r ->
  exists flag w', check_products ps b w = (Returned flag, w').
Proof.
  induction 1 as [|p rest [Hs Hb] Hrest IH]; intros b w r Hr.
  - exists b, w. reflexivity.
  - rewrite (check_products_cons p rest b w Hr).
    destruct (fetch_result_selector_ok (length (requests w)) (p_url p) Hs)
      as (res & ->).
    cbv zeta. rewrite Hb. now apply (IH _ _ (r ++ [observation_of (clock w) p res])).
Qed.

(** The table exists once [ensure_db] has run, and nothing else
    changes. *)
Lemma ensure_db_eq (w : World) :
  ensure_db w = (Returned tt, set_price_history (Some (rows w)) w).
Proof.
  unfold ensure_db, rows. destruct w as [cf [r|] rq ck so se ev]; reflexivity.
Qed.

(** The three ways through [run_once]. *)
Lemma run_once_eq (w : World) :
  let w0 := set_price_history (Some (rows w)) w in
  run_once w =
  match config_file w with
  | None =>
      (Exited 1,
       log (PrintedErr ConfigNotFound)
         (set_stderr (stderr w ++ [ConfigNotFound]) w0))
  | Some cfg =>
      match cfg_products cfg with
      | None | Some [] =>
          (Exited 1,
           log (PrintedErr NoProducts)
             (set_stderr (stderr w ++ [NoProducts]) w0))
      | Some (p :: ps) =>
          match check_products (p :: ps) false w0 with
          | (Returned true, w') => (Returned tt, w')
          | (Returned false, w') =>
              (Returned tt,
               log (Printed NoAlerts)
                 (set_stdout (stdout w' ++ [NoAlerts]) w'))
          | (Exited c, w') => (Exited c, w')
          | (Raised e, w') => (Raised e, w')
          end
      end
  end.
Proof.
  cbv zeta. unfold Watch.run_once. unfold bind at 1. rewrite ensure_db_eq.
  cbn [config_file set_price_history].
  destruct (config_file w) as [cfg|]; [|reflexivity].
  destruct (cfg_products cfg) as [[|p ps]|]; try reflexivity.
  unfold bind.
  destruct (Watch.check_products _ _ _ _ (p :: ps) false _) as [[[|]|c|e] w'];
    reflexivity.
Qed.

Lemma report_lines_not_summary (new : list Observation) :
  Forall (fun l => is_summary l = false) (flat_map report_lines new).
Proof.
  induction new as [|o new IH]; cbn [flat_map]; [constructor|].
  apply Forall_app. split; [|exact IH].
  unfold report_lines.
  destruct (negb (str_eqb (o_status o) status_ok)); [repeat constructor|].
  destruct (alerting o); repeat constructor.
Qed.

(** A run over a non-empty list of products. *)
Lemma run_once_products (w : World) (cfg : Config) (ps : list Product) :
  config_file w = Some cfg -> cfg_products cfg = Some ps -> ps <> [] ->
  exists (new : list Observation) (tail : list str),
    let res := run_once w in
    price_history (snd res) = Some (rows w ++ new) /\
    requests (snd res) = requests w ++ map o_url new ++ tail /\
    stderr (snd res) = stderr w /\
    Forall2 records_for (firstn (length new) ps) new /\
    Forall price_iff_ok new /\
    Forall (fun o => known_status (o_status o)) new /\
    match fst res with
    | Returned _ =>
        length new = length ps /\ tail = [] /\
        stdout (snd res) =
        stdout w ++ flat_map report_lines new ++
        (if existsb alerting new then [] else [NoAlerts]) /\
        events (snd res) =
        events w ++ flat_map row_events new ++
        (if existsb alerting new then [] else [Printed NoAlerts])
    | Raised e =>
        (exists p,
           nth_error ps (length new) = Some p /\ tail = [p_url p] /\
           (fetch_result (length (requests w) + length new)
              (p_url p) (p_selector p) = inl e \/
            (e = OverflowError /\ bindable (p_target_price p) = false))) /\
        stdout (snd res) = stdout w ++ flat_map report_lines new /\
        events (snd res) =
        events w ++ flat_map row_events new ++ map Requested tail
    | Exited _ => False
    end.
Proof.
  intros Hc Hp Hne. destruct ps as [|p ps]; [congruence|].
  pose proof (run_once_eq w) as E. cbv zeta in E. rewrite Hc, Hp in E.
  destruct (check_products_run (p :: ps) false
              (set_price_history (Some (rows w)) w) eq_refl)
    as (new & tail & H1 & H2 & H3 & H4 & H5 & H6 & H7 & H8 & H9 & H10).
  exists new, tail. cbv zeta in *.
  destruct (check_products (p :: ps) false _) as [out w'].
  cbn [fst snd set_price_history config_file stderr requests stdout events]
    in *.
  destruct out as [[|]|c|e]; rewrite E; cbn [fst snd];
    cbn [set_stdout log price_history requests stderr stdout events].
  - destruct H10 as (Hl & Hb & Ht). cbn [orb] in Hb.
    rewrite <- Hb, !app_nil_r. subst tail. cbn [map] in H6.
    rewrite app_nil_r in H6.
    repeat split; auto.
  - destruct H10 as (Hl & Hb & Ht). cbn [orb] in Hb.
    rewrite <- Hb, H5, H6, <- !app_assoc. subst tail. cbn [map app].
    repeat split; auto.
  - contradiction.
  - repeat split; auto.
Qed.

(** A run completes when the parser accepts every selector and every
    target can be stored. *)
Lemma run_once_returns (w : World) (cfg : Config) (ps : list Product) :
  config_file w = Some cfg -> cfg_products cfg = Some ps -> ps <> [] ->
  Forall (fun p => selector_ok (p_selector p) /\
                   bindable (p_target_price p) = true) ps ->
  fst (run_once w) = Returned tt.
Proof.
  intros Hc Hp Hne Hall. destruct ps as [|p ps]; [congruence|].
  pose proof (run_once_eq w) as E. cbv zeta in E. rewrite Hc, Hp in E.
  destruct (check_products_returns Hall false
              (set_price_history (Some (rows w)) w) eq_refl)
    as (flag & w' & Hrun).
  rewrite Hrun in E. rewrite E. now destruct flag.
Qed.

(** Without products nothing is fetched, recorded or printed. *)
Lemma run_once_no_products (w : World) :
  config_file w = None \/
  (exists cfg, config_file w = Some cfg /\
     (cfg_products cfg = None \/ cfg_products cfg = Some [])) ->
  exists l,
    (l = ConfigNotFound \/ l = NoProducts) /\
    run_once w =
    (Exited 1,
     log (PrintedErr l)
       (set_stderr (stderr w ++ [l]) (set_price_history (Some (rows w)) w))).
Proof.
  intros H. pose proof (run_once_eq w) as E. cbv zeta in E.
  destruct H as [H | (cfg & H & [Hp | Hp])].
  - rewrite H in E. exists ConfigNotFound. auto.
  - rewrite H, Hp in E. exists NoProducts. auto.
  - rewrite H, Hp in E. exists NoProducts. auto.
Qed.

Lemma alerting_true_iff (o : Observation) :
  alerting o = true <->
  o_status o = status_ok /\
  exists t pr tf,
    o_target o = Some t /\ o_price o = Some pr /\
    float_of_num t = Some tf /\ le pr tf = true.
Proof.
  unfold alerting. rewrite andb_true_iff, str_eqb_eq.
  split; intros [Hs H]; (split; [exact Hs|]).
  - destruct (o_target o) as [t|]; [|discriminate].
    destruct (o_price o) as [pr|]; [|discriminate].
    destruct (float_of_num t) as [tf|] eqn:Et; [|discriminate].
    exists t, pr, tf. auto.
  - destruct H as (t & pr & tf & -> & -> & Ht & Hle). now rewrite Ht.
Qed.

(* ------------------------------------------------------------------ *)
(** ** The claims about the pipeline *)
(* ------------------------------------------------------------------ *)

(** C1. Whenever [fetch_price] returns, it returns a pair
    [(price, status)] whose price is present if and only if the status
    is "ok"; the only other way out of it is an exception of the HTML
    selection on the page that came. And every row that a run of
    [run_once] adds to the table, however the run ends, has a price
    exactly when its status is "ok". *)
Theorem price_present_iff_status_ok :
  (forall (url selector : str) (w : World),
     match fst (fetch_price url selector w) with
     | Returned (price, status) => price <> None <-> status = status_ok
     | Raised e =>
         exists text,
           http_get (length (requests w)) url = inr text /\
           select_one text selector = inl e
     | Exited _ => False
     end) /\
  (forall w : World,
     exists new : list Observation,
       rows (snd (run_once w)) = rows w ++ new /\
       Forall price_iff_ok new).
Proof.
  split.
  - intros url selector w. rewrite fetch_price_eq. cbn [fst].
    destruct (fetch_result (length (requests w)) url selector)
      as [e|[price status]] eqn:Ef.
    + now apply fetch_result_raises.
    + apply (fetch_result_price_iff_ok _ _ _ Ef).
  - intros w.
    destruct (config_file w) as [cfg|] eqn:Hc.
    + destruct (cfg_products cfg) as [[|p ps]|] eqn:Hp.
      * destruct (run_once_no_products w) as (l & _ & E); [eauto|].
        exists []. rewrite E. cbn. now rewrite app_nil_r.
      * destruct (run_once_products w Hc Hp)
          as (new & tail & H1 & _ & _ & _ & H5 & _); [discriminate|].
        exists new. cbv zeta in H1. unfold rows at 1. now rewrite H1.
      * destruct (run_once_no_products w) as (l & _ & E); [eauto|].
        exists []. rewrite E. cbn. now rewrite app_nil_r.
    + destruct (run_once_no_products w) as (l & _ & E); [auto|].
      exists []. rewrite E. cbn. now rewrite app_nil_r.
Qed.

(** C2. In the loop of [run_once] the flag [any_alerts] on exit is the
    flag on entry OR-ed with the alerts of the products in order:
    starting from False it is True if and only if the check of some
    configured product ended with status "ok", a present target and
    price <= target, and False when no product alerts. *)
Theorem any_alerts_iff_some_product_alerts
    (ps : list Product) (b : bool) (w : World) (flag : bool) (w' : World) :
  check_products ps b w = (Returned flag, w') ->
  exists new : list Observation,
    rows w' = rows w ++ new /\
    Forall2 records_for ps new /\
    flag = b || existsb alerting new /\
    (b = false ->
     (flag = true <->
      Exists (fun o =>
                o_status o = status_ok /\
                exists t pr tf,
                  o_target o = Some t /\ o_price o = Some pr /\
                  float_of_num t = Some tf /\ le pr tf = true) new)) /\
    (b = false -> Forall (fun o => alerting o = false) new -> flag = false).
Proof.
  intros Hrun.
  assert (Hnew : exists new, rows w' = rows w ++ new /\
                   Forall2 records_for ps new /\
                   flag = b || existsb alerting new).
  { destruct (price_history w) as [r|] eqn:Hr.
    - destruct (check_products_run ps b w Hr)
        as (new & tail & H1 & _ & _ & _ & _ & _ & H6 & _ & _ & H9).
      cbv zeta in *. rewrite Hrun in *. cbn [fst snd] in *.
      destruct H9 as (Hl & Hb & _).
      exists new. rewrite Hl, firstn_all2 in H6 by lia.
      unfold rows. now rewrite H1, Hr.
    - destruct ps as [|p rest].
      + cbn in Hrun. injection Hrun as <- <-. exists [].
        rewrite app_nil_r, orb_false_r. repeat split. constructor.
      + destruct (check_products_no_table p rest b w Hr) as (e & Hno).
        rewrite Hrun in Hno. discriminate Hno. }
  destruct Hnew as (new & H1 & H6 & Hb).
  exists new.
  split; [exact H1|]. split; [exact H6|]. split; [exact Hb|]. split.
  - intros ->. cbn [orb] in Hb. subst flag. split.
    + intros Hf.
      apply existsb_exists in Hf. destruct Hf as (o & Hin & Ho).
      apply Exists_exists. exists o. split; [exact Hin|].
      now apply alerting_true_iff.
    + intros Hex.
      apply Exists_exists in Hex. destruct Hex as (o & Hin & Ho).
      apply existsb_exists. exists o. split; [exact Hin|].
      now apply alerting_true_iff.
  - intros -> Hall. cbn [orb] in Hb. subst flag.
    destruct (existsb alerting new) eqn:E; [|reflexivity].
    apply existsb_exists in E. destruct E as (o & Hin & Ho).
    rewrite Forall_forall in Hall. rewrite (Hall o Hin) in Ho. discriminate.
Qed.

(** C5 (amended). A run of [run_once] over a non-empty configured list
    records exactly one row for every product whose check runs to its
    end, whatever the status of the check (ok, fetch_error,
    selector_not_found or parse_failed), and the row is inserted before
    any line about the product is printed: the effects of the run, in
    the order they happened, are, product after product, the GET, the
    INSERT and then the product's lines. A run that completes has done
    so for every product, in order. A run that raises had requested one
    more product, which has no row: its HTML selection raised on the page
    that came, or [record] raised OverflowError on its integer target,
    which does not fit 64 bits. *)
Theorem one_observation_per_product
    (w : World) (cfg : Config) (ps : list Product) :
  config_file w = Some cfg -> cfg_products cfg = Some ps -> ps <> [] ->
  exists (new : list Observation) (rest : list Event),
    rows (snd (run_once w)) = rows w ++ new /\
    Forall2 records_for (firstn (length new) ps) new /\
    Forall (fun o => known_status (o_status o)) new /\
    events (snd (run_once w)) =
    events w ++ flat_map row_events new ++ rest /\
    (forall u, fst (run_once w) = Returned u ->
       Forall2 records_for ps new /\
       (rest = [] \/ rest = [Printed NoAlerts])) /\
    (forall e, fst (run_once w) = Raised e ->
       exists p,
         nth_error ps (length new) = Some p /\
         rest = [Requested (p_url p)] /\
         ((exists text,
             http_get (length (requests w) + length new) (p_url p) =
             inr text /\
             select_one text (p_selector p) = inl e) \/
          (e = OverflowError /\
           exists z, p_target_price p = Some (NInt z) /\ int64 z = false))).
Proof.
  intros Hc Hp Hne.
  destruct (run_once_products w Hc Hp Hne)
    as (new & tail & H1 & _ & _ & H4 & _ & H6 & H7).
  cbv zeta in *.
  destruct (fst (run_once w)) as [u|c|e].
  - destruct H7 as (Hl & Ht & Hs & He).
    exists new, (if existsb alerting new then [] else [Printed NoAlerts]).
    split; [unfold rows at 1; now rewrite H1|].
    split; [exact H4|]. split; [exact H6|]. split; [exact He|]. split.
    + intros _ _. rewrite Hl, firstn_all2 in H4 by lia.
      split; [exact H4|]. destruct (existsb alerting new); auto.
    + discriminate.
  - contradiction.
  - destruct H7 as ((p & Hn & Ht & Hwhy) & Hs & He).
    exists new, (map Requested tail).
    split; [unfold rows at 1; now rewrite H1|].
    split; [exact H4|]. split; [exact H6|]. split; [exact He|]. split.
    + discriminate.
    + intros e' [= <-]. exists p. split; [exact Hn|].
      split; [now rewrite Ht|].
      destruct Hwhy as [Hf | [Hov Hb]].
      * left. now apply fetch_result_raises.
      * right. split; [exact Hov|]. now apply bindable_false.
Qed.

(** C6. If products.yaml is absent, or its product list is absent or
    empty, [run_once] exits with a nonzero code after one message on
    stderr that names the configuration problem: no request has been
    sent, no row recorded and nothing printed on stdout. *)
Theorem empty_config_fails_fast (w : World) :
  config_file w = None \/
  (exists cfg, config_file w = Some cfg /\
     (cfg_products cfg = None \/ cfg_products cfg = Some [])) ->
  (exists code, fst (run_once w) = Exited code /\ code <> 0%Z) /\
  requests (snd (run_once w)) = requests w /\
  rows (snd (run_once w)) = rows w /\
  clock (snd (run_once w)) = clock w /\
  stdout (snd (run_once w)) = stdout w /\
  exists l, (l = ConfigNotFound \/ l = NoProducts) /\
            stderr (snd (run_once w)) = stderr w ++ [l].
Proof.
  intros H. destruct (run_once_no_products w H) as (l & Hl & E).
  rewrite E. cbn. split; [exists 1%Z; split; [reflexivity | lia]|].
  repeat split. exists l. auto.
Qed.

(** C9 (amended). A run of [run_once] that completes over a non-empty
    product list prints the per-product lines and then the line
    "No alerts this run." exactly when no product alerted; when some
    product alerted, nothing follows the per-product lines. *)
Theorem final_line_only_without_alerts
    (w : World) (cfg : Config) (ps : list Product) (u : unit) :
  config_file w = Some cfg -> cfg_products cfg = Some ps -> ps <> [] ->
  fst (run_once w) = Returned u ->
  exists new : list Observation,
    Forall2 records_for ps new /\
    Forall (fun l => is_summary l = false) (flat_map report_lines new) /\
    stdout (snd (run_once w)) =
    stdout w ++ flat_map report_lines new ++
    (if existsb alerting new then [] else [NoAlerts]).
Proof.
  intros Hc Hp Hne Hret.
  destruct (run_once_products w Hc Hp Hne)
    as (new & tail & _ & _ & _ & H4 & _ & _ & H7).
  cbv zeta in *. rewrite Hret in H7. destruct H7 as (Hl & _ & Hs & _).
  exists new. rewrite Hl, firstn_all2 in H4 by lia.
  split; [exact H4|]. split; [apply report_lines_not_summary | exact Hs].
Qed.

End WatcherFacts.

(* ================================================================== *)
(** * Facts about strings *)
(* ================================================================== *)

Module StrFacts.

Local Open Scope N_scope.

(** ** Stripping and filtering *)

Lemma rstrip_cons (c : char) (s : str) :
  rstrip (c :: s) =
  match rstrip s with
  | [] => if isspace c then [] else [c]
  | t => c :: t
  end.
Proof. reflexivity. Qed.

Lemma lstrip_rstrip_comm (s : str) : lstrip (rstrip s) = rstrip (lstrip s).
Proof.
  induction s as [|c s IH]; [reflexivity|].
  rewrite rstrip_cons. cbn [lstrip].
  destruct (isspace c) eqn:Ec.
  - rewrite <- IH. destruct (rstrip s) as [|x t]; [reflexivity|].
    cbn [lstrip]. now rewrite Ec.
  - rewrite rstrip_cons.
    destruct (rstrip s) as [|x t]; cbn [lstrip]; now rewrite Ec.
Qed.

Section Filters.

(** [keep] is a filter that lets every whitespace character through. *)
Variable keep : char -> bool.
Hypothesis keep_space : forall c, isspace c = true -> keep c = true.

Lemma lstrip_filter_lstrip (s : str) :
  lstrip (filter keep (lstrip s)) = lstrip (filter keep s).
Proof.
  induction s as [|c s IH]; [reflexivity|].
  cbn [lstrip]. destruct (isspace c) eqn:Ec; [|reflexivity].
  cbn [filter]. rewrite (keep_space c Ec). cbn [lstrip]. now rewrite Ec.
Qed.

Lemma rstrip_filter_rstrip (s : str) :
  rstrip (filter keep (rstrip s)) = rstrip (filter keep s).
Proof.
  induction s as [|c s IH]; [reflexivity|].
  rewrite rstrip_cons.
  destruct (rstrip s) as [|x t] eqn:Er.
  - cbn [filter] in IH.
    destruct (isspace c) eqn:Ec.
    + cbn [filter]. rewrite (keep_space c Ec), rstrip_cons, <- IH.
      cbn [rstrip]. now rewrite Ec.
    + cbn [filter].
      destruct (keep c); [|exact IH].
      rewrite !rstrip_cons, <- IH. reflexivity.
  - cbn [filter] in *.
    destruct (keep c); [|exact IH].
    rewrite !rstrip_cons. now rewrite IH.
Qed.

Lemma strip_filter_strip (s : str) :
  strip (filter keep (strip s)) = strip (filter keep s).
Proof.
  unfold strip.
  rewrite (lstrip_rstrip_comm (filter keep (lstrip (rstrip s)))).
  rewrite lstrip_filter_lstrip.
  rewrite <- lstrip_rstrip_comm, rstrip_filter_rstrip.
  reflexivity.
Qed.

End Filters.

(** ** Deleting one character *)

Lemma replace_nil_filter (x : char) (s : str) :
  replace x [] s = filter (fun c => negb (c =? x)) s.
Proof.
  induction s as [|c s IH]; [reflexivity|].
  cbn [replace filter app]. destruct (c =? x); cbn [negb]; now rewrite IH.
Qed.

Lemma filter_comm {A} (f g : A -> bool) (l : list A) :
  filter f (filter g l) = filter g (filter f l).
Proof.
  induction l as [|a l IH]; [reflexivity|].
  cbn [filter].
  destruct (f a) eqn:Ef, (g a) eqn:Eg; cbn [filter];
    rewrite ?Ef, ?Eg, IH; reflexivity.
Qed.

Lemma filter_idem {A} (f : A -> bool) (l : list A) :
  filter f (filter f l) = filter f l.
Proof.
  induction l as [|a l IH]; [reflexivity|].
  cbn [filter]. destruct (f a) eqn:Ef; cbn [filter]; rewrite ?Ef, IH;
    reflexivity.
Qed.

Section DeleteSpace.

(** [del] deletes characters that are all whitespace. *)
Variable del : char -> bool.
Hypothesis del_space : forall c, del c = false -> isspace c = true.

Lemma del_lstrip_del (s : str) :
  filter del (lstrip (filter del s)) = filter del (lstrip s).
Proof.
  induction s as [|c s IH]; [reflexivity|].
  cbn [filter lstrip].
  destruct (del c) eqn:Ed.
  - cbn [lstrip]. destruct (isspace c); [exact IH|].
    cbn [filter]. now rewrite Ed, filter_idem.
  - now rewrite (@del_space c Ed).
Qed.

Lemma rstrip_del_nil (s : str) :
  rstrip (filter del s) = [] -> rstrip s = [].
Proof.
  induction s as [|c s IH]; [reflexivity|].
  cbn [filter]. destruct (del c) eqn:Ed.
  - rewrite !rstrip_cons.
    destruct (rstrip (filter del s)) as [|x t]; [|discriminate].
    rewrite (IH eq_refl). now destruct (isspace c).
  - intros H. rewrite rstrip_cons, (IH H). now rewrite (@del_space c Ed).
Qed.

Lemma rstrip_nil_del (s : str) :
  rstrip s = [] -> rstrip (filter del s) = [].
Proof.
  induction s as [|c s IH]; [reflexivity|].
  rewrite rstrip_cons.
  destruct (rstrip s) as [|x t]; [|discriminate].
  destruct (isspace c) eqn:Ec; [|discriminate]. intros _.
  cbn [filter]. destruct (del c); [|now apply IH].
  rewrite rstrip_cons, (IH eq_refl). now rewrite Ec.
Qed.

Lemma del_rstrip_del (s : str) :
  filter del (rstrip (filter del s)) = filter del (rstrip s).
Proof.
  induction s as [|c s IH]; [reflexivity|].
  cbn [filter]. rewrite (rstrip_cons c s).
  destruct (del c) eqn:Ed.
  - rewrite rstrip_cons.
    destruct (rstrip (filter del s)) as [|x t] eqn:E1.
    + rewrite (rstrip_del_nil s E1). reflexivity.
    + destruct (rstrip s) as [|y u] eqn:E2.
      * rewrite (rstrip_nil_del s E2) in E1. discriminate.
      * cbn [filter] in IH |- *. now rewrite Ed, IH.
  - rewrite IH. rewrite (@del_space c Ed).
    destruct (rstrip s) as [|y u]; [reflexivity|].
    cbn [filter]. now rewrite Ed.
Qed.

Lemma del_strip_del (s : str) :
  filter del (strip (filter del s)) = filter del (strip s).
Proof.
  unfold strip.
  rewrite <- (del_lstrip_del (rstrip (filter del s))).
  rewrite del_rstrip_del, del_lstrip_del. reflexivity.
Qed.

End DeleteSpace.

Lemma lstrip_idem (s : str) : lstrip (lstrip s) = lstrip s.
Proof.
  induction s as [|c s IH]; [reflexivity|].
  cbn [lstrip]. destruct (isspace c) eqn:Ec; [exact IH|].
  cbn [lstrip]. now rewrite Ec.
Qed.

Lemma kept_space (c : char) : isspace c = true -> kept c = true.
Proof. unfold kept. intros ->. apply orb_true_r. Qed.

Lemma not_space_is_space (c : char) :
  negb (c =? c_space) = false -> isspace c = true.
Proof.
  rewrite negb_false_iff, N.eqb_eq. intros ->. reflexivity.
Qed.

Lemma clean_eq (text : str) :
  clean text =
  filter (fun c => negb (c =? c_space)) (strip (filter kept text)).
Proof.
  unfold clean, re_sub_non_price.
  now rewrite replace_nil_filter, (strip_filter_strip kept kept_space).
Qed.

Lemma clean_delete_spaces (text : str) :
  clean (replace c_space [] text) = clean text.
Proof.
  rewrite !clean_eq, replace_nil_filter, filter_comm.
  apply (del_strip_del _ not_space_is_space).
Qed.

Lemma clean_strip (text : str) : clean (strip text) = clean text.
Proof.
  rewrite !clean_eq. now rewrite (strip_filter_strip kept kept_space).
Qed.

(** ** The last separator *)

Lemma rfind_from_app (c : char) (s t : str) (i f : Z) :
  rfind_from c (s ++ t) i f =
  rfind_from c t (i + Z.of_nat (length s))%Z (rfind_from c s i f).
Proof.
  revert i f. induction s as [|x s IH]; intros i f.
  - cbn. now rewrite Z.add_0_r.
  - cbn [app rfind_from length]. rewrite IH. f_equal. lia.
Qed.

Lemma rfind_from_lt (c : char) (s : str) (i f : Z) :
  (f < i)%Z -> (rfind_from c s i f < i + Z.of_nat (length s))%Z.
Proof.
  revert i f. induction s as [|x s IH]; intros i f Hf.
  - cbn. lia.
  - cbn [rfind_from length].
    specialize (IH (i + 1)%Z (if x =? c then i else f)).
    destruct (x =? c); lia.
Qed.

Lemma rfind_snoc (c : char) (s : str) (x : char) :
  rfind c (s ++ [x]) =
  if x =? c then Z.of_nat (length s) else rfind c s.
Proof. unfold rfind. rewrite rfind_from_app. reflexivity. Qed.

Lemma rfind_lt (c : char) (s : str) : (rfind c s < Z.of_nat (length s))%Z.
Proof. unfold rfind. apply rfind_from_lt. lia. Qed.

Lemma contains_snoc (c : char) (s : str) (x : char) :
  contains c (s ++ [x]) = contains c s || (c =? x).
Proof.
  unfold contains. rewrite existsb_app. cbn. now rewrite orb_false_r.
Qed.

Lemma last_separator_snoc (s : str) (x : char) :
  last_separator (s ++ [x]) =
  if is_separator x then Some x else last_separator s.
Proof. unfold last_separator. rewrite rev_app_distr. reflexivity. Qed.

(** With both separators present, [rfind] picks the comma exactly when
    the last separator is the comma. *)
Lemma rfind_comma_dot (s : str) :
  contains c_comma s = true \/ contains c_dot s = true ->
  (rfind c_comma s >? rfind c_dot s)%Z =
  match last_separator s with
  | Some d => d =? c_comma
  | None => false
  end.
Proof.
  induction s as [|x s IH] using rev_ind.
  - cbn. intros [H|H]; discriminate.
  - intros _. rewrite !rfind_snoc, last_separator_snoc. unfold is_separator.
    destruct (x =? c_comma) eqn:Ec; cbn [orb].
    + cbv iota. rewrite Ec. apply N.eqb_eq in Ec. subst x.
      change (c_comma =? c_dot) with false. cbv iota.
      pose proof (rfind_lt c_dot s). apply Z.gtb_lt. lia.
    + destruct (x =? c_dot) eqn:Ed.
      * cbv iota. rewrite Ec.
        pose proof (rfind_lt c_comma s).
        rewrite Z.gtb_ltb. apply Z.ltb_ge. lia.
      * destruct (contains c_comma s) eqn:H1; [apply IH; auto|].
        destruct (contains c_dot s) eqn:H2; [apply IH; auto|].
        clear IH.
        assert (Hn : forall c, contains c s = false -> rfind c s = (-1)%Z).
        { clear. intros c. unfold rfind. generalize 0%Z (-1)%Z.
          induction s as [|y s IH]; intros i f H; [reflexivity|].
          cbn in H. apply orb_false_iff in H. destruct H as [H1 H2].
          cbn [rfind_from]. rewrite N.eqb_sym, H1. now apply IH. }
        rewrite (Hn _ H1), (Hn _ H2).
        assert (Hl : forall s, contains c_comma s = false ->
                     contains c_dot s = false -> last_separator s = None).
        { clear. intros s. unfold last_separator.
          induction s as [|y s IH] using rev_ind; [reflexivity|].
          rewrite !contains_snoc, !orb_false_iff, rev_app_distr.
          intros [H1 H2] [H3 H4]. cbn. unfold is_separator at 1.
          rewrite N.eqb_sym, H2, N.eqb_sym, H4. cbn. now apply IH. }
        now rewrite (Hl s H1 H2).
Qed.

Lemma replace_same (c : char) (s : str) : replace c [c] s = s.
Proof.
  induction s as [|x s IH]; [reflexivity|].
  cbn [replace]. destruct (x =? c) eqn:E.
  - apply N.eqb_eq in E. subst. cbn. now rewrite IH.
  - now rewrite IH.
Qed.

Lemma contains_replace_nil (c : char) (s : str) :
  contains c (replace c [] s) = false.
Proof.
  induction s as [|x s IH]; [reflexivity|].
  cbn [replace app]. destruct (x =? c) eqn:E; [exact IH|].
  cbn. now rewrite N.eqb_sym, E.
Qed.

Lemma contains_replace_other (c d : char) (new s : str) :
  contains c s = false -> contains c new = false ->
  contains c (replace d new s) = false.
Proof.
  intros Hs Hn. induction s as [|x s IH]; [reflexivity|].
  cbn in Hs. apply orb_false_iff in Hs. destruct Hs as [H1 H2].
  cbn [replace]. destruct (x =? d).
  - unfold contains in *. rewrite existsb_app.
    apply orb_false_iff. split; [exact Hn | now apply IH].
  - cbn. rewrite H1. now apply IH.
Qed.

Lemma last_separator_present (s : str) :
  contains c_comma s = true ->
  exists d, last_separator s = Some d /\ is_separator d = true.
Proof.
  unfold last_separator, contains. intros H.
  destruct (find is_separator (rev s)) as [d|] eqn:E.
  - exists d. split; [reflexivity|]. now apply find_some in E.
  - apply existsb_exists in H. destruct H as (x & Hin & Hx).
    apply N.eqb_eq in Hx. subst x.
    apply in_rev in Hin.
    pose proof (find_none _ _ E c_comma Hin) as Hf. discriminate Hf.
Qed.

(** The source agrees with the rule of the specification when both
    separators occur. *)
Lemma disambiguate_both (s : str) :
  contains c_comma s = true -> contains c_dot s = true ->
  disambiguate s = last_separator_rule s.
Proof.
  intros Hc Hd. unfold disambiguate, last_separator_rule.
  rewrite Hc, Hd. cbn [andb].
  rewrite rfind_comma_dot by auto.
  destruct (last_separator_present s Hc) as (d & -> & Hsep).
  unfold other_separator.
  destruct (d =? c_comma) eqn:E.
  - apply N.eqb_eq in E. now subst d.
  - unfold is_separator in Hsep. rewrite E in Hsep. cbn in Hsep.
    apply N.eqb_eq in Hsep. subst d. now rewrite replace_same.
Qed.

(** ** All occurrences but the last *)

Lemma split_not_nil (c : char) (s : str) : split c s <> [].
Proof.
  destruct s as [|x s]; [discriminate|].
  cbn [split]. destruct (split c s); [discriminate|].
  destruct (x =? c); discriminate.
Qed.

Lemma delete_all_but_last_absent (c : char) (s : str) :
  contains c s = false -> delete_all_but_last c s = s.
Proof.
  induction s as [|x s IH]; [reflexivity|].
  cbn [contains existsb delete_all_but_last]. fold (contains c s).
  intros H. apply orb_false_iff in H. destruct H as [H1 H2].
  rewrite H2, andb_false_r. now rewrite IH.
Qed.

Lemma split_single (c : char) (s p : str) :
  split c s = [p] -> contains c s = false /\ p = s.
Proof.
  revert p. induction s as [|x s IH]; intros p.
  - cbn. intros [= <-]. auto.
  - cbn [split]. pose proof (split_not_nil c s) as Hne.
    destruct (split c s) as [|q qs]; [congruence|].
    + destruct (x =? c) eqn:E; [discriminate|].
      intros [= <- ->]. destruct (IH q eq_refl) as [Hc Hq]. subst q.
      cbn [contains existsb]. fold (contains c s).
      now rewrite N.eqb_sym, E, Hc.
Qed.

Lemma split_absent (c : char) (s : str) :
  contains c s = false -> split c s = [s].
Proof.
  induction s as [|x s IH]; [reflexivity|].
  cbn [contains existsb split]. fold (contains c s).
  intros H. apply orb_false_iff in H. destruct H as [H1 H2].
  now rewrite (IH H2), N.eqb_sym, H1.
Qed.

Lemma replace_absent (c : char) (new s : str) :
  contains c s = false -> replace c new s = s.
Proof.
  induction s as [|x s IH]; [reflexivity|].
  cbn [contains existsb replace]. fold (contains c s).
  intros H. apply orb_false_iff in H. destruct H as [H1 H2].
  rewrite N.eqb_sym, H1. now rewrite (IH H2).
Qed.

(** What lines 68-69 and 76-77 build from the parts of a split: the
    last separator becomes [m], the others are deleted. *)
Lemma join_split_with (c m : char) (s : str) :
  join_empty (all_but_last (split c s)) ++ [m] ++ last_part (split c s) =
  if contains c s then replace c [m] (delete_all_but_last c s) else m :: s.
Proof.
  unfold join_empty, all_but_last, last_part.
  induction s as [|x s IH]; [reflexivity|].
  cbn [split]. pose proof (split_not_nil c s) as Hne.
  destruct (split c s) as [|p ps] eqn:Esp; [congruence|]. clear Hne.
  cbn [contains existsb delete_all_but_last]. fold (contains c s).
  rewrite (N.eqb_sym c x).
  destruct (x =? c) eqn:E.
  - cbn [orb andb].
    change (removelast ([] :: p :: ps)) with ([] :: removelast (p :: ps)).
    change (last ([] :: p :: ps) []) with (last (p :: ps) []).
    cbn [concat app] in *. rewrite IH.
    destruct (contains c s) eqn:Hc; [reflexivity|].
    rewrite delete_all_but_last_absent by exact Hc.
    cbn [replace]. rewrite E. cbn [app].
    now rewrite replace_absent.
  - cbn [orb andb].
    destruct ps as [|q ps].
    + destruct (split_single c s Esp) as [Hc ->]. now rewrite Hc.
    + change (removelast ((x :: p) :: q :: ps))
        with ((x :: p) :: removelast (q :: ps)).
      change (removelast (p :: q :: ps)) with (p :: removelast (q :: ps)) in IH.
      change (last ((x :: p) :: q :: ps) []) with (last (q :: ps) []).
      change (last (p :: q :: ps) []) with (last (q :: ps) []) in IH.
      cbn [concat app] in *. rewrite <- app_assoc in *. cbn [app] in *.
      destruct (contains c s) eqn:Hc.
      * cbn [replace]. now rewrite E, IH.
      * rewrite (split_absent c s Hc) in Esp. discriminate.
Qed.

Lemma join_split (c : char) (s : str) :
  join_empty (all_but_last (split c s)) ++ [c] ++ last_part (split c s) =
  if contains c s then delete_all_but_last c s else c :: s.
Proof. rewrite join_split_with. now rewrite replace_same. Qed.

Lemma count_contains (c : char) (s : str) :
  (0 <? count c s)%nat = contains c s.
Proof.
  induction s as [|x s IH]; [reflexivity|].
  cbn [count contains existsb]. rewrite (N.eqb_sym c x).
  destruct (x =? c); [reflexivity|exact IH].
Qed.

Lemma count_delete_all_but_last (c : char) (s : str) :
  contains c s = true -> count c (delete_all_but_last c s) = 1%nat.
Proof.
  induction s as [|x s IH]; [discriminate|].
  cbn [contains existsb delete_all_but_last]. fold (contains c s).
  rewrite (N.eqb_sym c x).
  destruct (x =? c) eqn:E; cbn [orb andb].
  - intros _. destruct (contains c s) eqn:Hc; [now apply IH|].
    cbn [count]. rewrite E, delete_all_but_last_absent by exact Hc.
    pose proof (count_contains c s) as H. rewrite Hc in H.
    apply Nat.ltb_ge in H. lia.
  - intros Hc. cbn [count]. rewrite E. now apply IH.
Qed.

(** The source agrees with the rule of the specification when only the
    dot occurs, more than once. *)
Lemma disambiguate_dots (s : str) :
  contains c_comma s = false -> (1 < count c_dot s)%nat ->
  disambiguate s = delete_all_but_last c_dot s.
Proof.
  intros Hc Hn. unfold disambiguate. rewrite Hc. cbn [andb].
  assert (Hd : contains c_dot s = true).
  { rewrite <- count_contains. apply Nat.ltb_lt. lia. }
  rewrite Hd. apply Nat.ltb_lt in Hn. rewrite Hn.
  now rewrite join_split, Hd.
Qed.

End StrFacts.

(* ================================================================== *)
(** * Facts about the float conversion *)
(* ================================================================== *)

Module FloatFacts.

Local Open Scope N_scope.

(** Case analysis on the comparisons of a goal, pruning as it goes. *)
Ltac ncases :=
  repeat (match goal with
          | |- context [N.leb ?a ?b] => destruct (N.leb_spec a b)
          | |- context [N.ltb ?a ?b] => destruct (N.ltb_spec a b)
          | |- context [N.eqb ?a ?b] => destruct (N.eqb_spec a b)
          end; try lia);
  cbn; try reflexivity; try discriminate; try lia.

(** ** Rounding keeps the sign *)

Lemma shr_1_nonneg (mrs : shr_record) :
  (0 <= shr_m mrs)%Z -> (0 <= shr_m (shr_1 mrs))%Z.
Proof.
  destruct mrs as [m r s]. cbn [shr_m].
  destruct m as [|p|p]; cbn; [lia | | lia].
  destruct p; cbn; lia.
Qed.

Lemma iter_pos_shr_1_nonneg (n : positive) (mrs : shr_record) :
  (0 <= shr_m mrs)%Z -> (0 <= shr_m (iter_pos shr_1 n mrs))%Z.
Proof.
  revert mrs. induction n as [n IH|n IH|]; intros mrs H; cbn [iter_pos].
  - apply IH, IH, shr_1_nonneg, H.
  - apply IH, IH, H.
  - apply shr_1_nonneg, H.
Qed.

Lemma shr_fexp_nonneg (m e : Z) (l : location) :
  (0 <= m)%Z -> (0 <= shr_m (fst (shr_fexp prec emax m e l)))%Z.
Proof.
  intros H. unfold shr_fexp, shr.
  assert (H0 : (0 <= shr_m (shr_record_of_loc m l))%Z).
  { destruct l as [|[| |]]; exact H. }
  destruct (fexp prec emax (Zdigits2 m + e) - e)%Z; cbn [fst];
    [exact H0 | | exact H0].
  now apply iter_pos_shr_1_nonneg.
Qed.

Lemma round_nearest_even_nonneg (m : Z) (l : location) :
  (0 <= m)%Z -> (0 <= round_nearest_even m l)%Z.
Proof.
  intros H. destruct l as [|[| |]]; cbn; try lia.
  destruct (Z.even m); lia.
Qed.

Lemma binary_round_aux_nonneg (sx : bool) (mx ex : Z) (lx : location) :
  (0 <= mx)%Z ->
  nonneg (binary_round_aux prec emax sx mx ex lx) = negb sx.
Proof.
  intros H. unfold binary_round_aux.
  pose proof (shr_fexp_nonneg ex lx H) as H1.
  destruct (shr_fexp prec emax mx ex lx) as [mrs' e'] eqn:E1.
  cbn [fst] in H1.
  pose proof (round_nearest_even_nonneg (loc_of_shr_record mrs') H1) as H2.
  pose proof (shr_fexp_nonneg e' loc_Exact H2) as H3.
  destruct (shr_fexp prec emax _ e' loc_Exact) as [mrs'' e''].
  cbn [fst] in H3.
  destruct (shr_m mrs'') as [|p|p]; [reflexivity| |lia].
  destruct (Z.leb e'' (emax - prec)); reflexivity.
Qed.

Lemma of_decimal_nonneg (neg : bool) (m : N) (e10 : Z) :
  nonneg (of_decimal neg m e10) = negb neg.
Proof.
  unfold of_decimal. destruct m as [|p]; [reflexivity|].
  destruct (Z.leb_spec 0 e10) as [He|He].
  - unfold binary_round.
    destruct (shl_align _ _ _) as [mz ez].
    now apply binary_round_aux_nonneg.
  - unfold SFdiv_core_binary.
    set (sh := (0 - 0 - _)%Z).
    set (m' := match sh with Z0 => Zpos p | Zpos _ => _ | Zneg _ => 0%Z end).
    assert (Hm : (0 <= m')%Z).
    { subst m'. destruct sh; try lia. apply Z.shiftl_nonneg. lia. }
    assert (Hq : (0 <= fst (Z.div_eucl m' (10 ^ (- e10))))%Z).
    { change (fst (Z.div_eucl m' (10 ^ (- e10)))) with (m' / 10 ^ (- e10))%Z.
      apply Z.div_pos; [exact Hm|]. apply Z.pow_pos_nonneg; lia. }
    destruct (Z.div_eucl m' (10 ^ (- e10))) as [q r]. cbn [fst] in Hq.
    now apply binary_round_aux_nonneg.
Qed.

(** ** Characters after [to_ascii] *)

Lemma decimal_in_spec (zeros : list char) (c : char) (d : N) :
  decimal_in zeros c = Some d ->
  exists z, In z zeros /\ z <= c /\ c < z + 10 /\ d = c - z.
Proof.
  induction zeros as [|z zeros IH]; [discriminate|].
  cbn [decimal_in].
  destruct ((z <=? c) && (c <? z + 10)) eqn:E.
  - intros [= <-]. apply andb_true_iff in E. destruct E as [E1 E2].
    apply N.leb_le in E1. apply N.ltb_lt in E2.
    exists z. cbn. auto.
  - intros H. destruct (IH H) as (z' & Hin & Hz). exists z'. cbn. auto.
Qed.

Lemma todecimal_ascii (c : char) (d : N) :
  todecimal c = Some d -> c < 127 -> 48 <= c /\ c <= 57.
Proof.
  intros H Hc. apply decimal_in_spec in H.
  destruct H as (z & Hin & H1 & H2 & _).
  unfold decimal_zeros in Hin. cbn [In] in Hin.
  repeat (destruct Hin as [Hz|Hin]; [subst z; lia|]).
  contradiction.
Qed.

Lemma todecimal_lt_10 (c : char) (d : N) : todecimal c = Some d -> d < 10.
Proof.
  intros H. apply decimal_in_spec in H.
  destruct H as (z & _ & H1 & H2 & ->). lia.
Qed.

Lemma isspace_ascii (c : char) :
  isspace c = true -> c < 127 -> (9 <= c /\ c <= 13) \/ (28 <= c /\ c <= 32).
Proof.
  unfold isspace. intros H Hc.
  repeat (apply orb_true_iff in H; destruct H as [H|H]);
    repeat (apply andb_true_iff in H; destruct H as [H H']);
    repeat match goal with
           | X : (_ <=? _) = true |- _ => apply N.leb_le in X
           | X : (_ =? _) = true |- _ => apply N.eqb_eq in X
           end; lia.
Qed.

Lemma signless_range (a : char) :
  (48 <= a /\ a <= 57) \/ a = 44 \/ a = 46 \/
  (9 <= a /\ a <= 13) \/ (28 <= a /\ a <= 32) ->
  signless a = true.
Proof.
  intros H. unfold signless, lower, c_minus.
  destruct (N.eqb_spec a 45); [lia|].
  destruct (N.leb_spec 65 a); [|cbn; destruct (N.eqb_spec a 110); [lia|reflexivity]].
  cbn. lia.
Qed.

Lemma to_ascii_char_signless (c : char) :
  kept c = true -> signless (to_ascii_char c) = true.
Proof.
  unfold kept, to_ascii_char. intros H.
  destruct (N.ltb_spec c 127) as [Hc|Hc].
  - apply signless_range.
    apply orb_true_iff in H. destruct H as [H|Hsp].
    + apply orb_true_iff in H. destruct H as [H|Hdot].
      * apply orb_true_iff in H. destruct H as [Hdec|Hcomma].
        -- unfold isdecimal in Hdec.
           destruct (todecimal c) as [d|] eqn:E; [|discriminate].
           left. now apply (todecimal_ascii E).
        -- apply N.eqb_eq in Hcomma. right. left. exact Hcomma.
      * apply N.eqb_eq in Hdot. right. right. left. exact Hdot.
    + right. right. right. now apply isspace_ascii.
  - destruct (isspace c); [reflexivity|].
    destruct (todecimal c) as [d|] eqn:E; [|reflexivity].
    apply signless_range. left. apply todecimal_lt_10 in E.
    unfold c_zero. lia.
Qed.

(** ** The parser never sees a sign it was not given *)

Lemma underscores_from_Forall (P : char -> Prop) (s : str) :
  forall prev t, underscores_from prev s = Some t -> Forall P s -> Forall P t.
Proof.
  induction s as [|c s IH]; intros prev t H Hs; cbn [underscores_from] in H.
  - destruct (prev =? c_underscore); [discriminate|]. injection H as <-.
    constructor.
  - inversion Hs as [|? ? Hc Hs']; subst.
    destruct (c =? c_underscore).
    + destruct (ascii_digit prev); [|discriminate]. eapply IH; eauto.
    + destruct ((prev =? c_underscore) && negb (ascii_digit c));
        [discriminate|].
      destruct (underscores_from c s) as [t'|] eqn:E; [|discriminate].
      injection H as <-. constructor; [exact Hc|]. eapply IH; eauto.
Qed.

Lemma remove_underscores_Forall (P : char -> Prop) (s t : str) :
  remove_underscores s = Some t -> Forall P s -> Forall P t.
Proof.
  unfold remove_underscores. destruct (contains c_underscore s).
  - apply underscores_from_Forall.
  - now intros [= <-].
Qed.

Lemma ascii_lstrip_Forall (P : char -> Prop) (s : str) :
  Forall P s -> Forall P (ascii_lstrip s).
Proof.
  induction 1 as [|c s Hc Hs IH]; [constructor|].
  cbn [ascii_lstrip]. destruct (ascii_space c); [exact IH|].
  now constructor.
Qed.

Lemma ascii_strip_Forall (P : char -> Prop) (s : str) :
  Forall P s -> Forall P (ascii_strip s).
Proof.
  intros H. unfold ascii_strip.
  apply Forall_rev, ascii_lstrip_Forall, Forall_rev, ascii_lstrip_Forall, H.
Qed.

Lemma parse_decimal_nonneg (neg : bool) (s : str) (v : float) :
  parse_decimal neg s = Some v -> nonneg v = negb neg.
Proof.
  unfold parse_decimal.
  destruct (span_digits s) as [ip r1].
  destruct (match r1 with
            | [] => ([], r1)
            | c :: r => if c =? c_dot then span_digits r else ([], r1)
            end) as [fp r2].
  destruct (ip ++ fp) as [|d ds]; [discriminate|].
  destruct (parse_exponent r2) as [e|]; [|discriminate].
  intros [= <-]. apply of_decimal_nonneg.
Qed.

Lemma parse_inf_or_nan_cases (neg : bool) (s : str) (v : float) :
  parse_inf_or_nan neg s = Some v ->
  v = S754_infinity neg \/ List.map lower s = lit "nan"%string.
Proof.
  unfold parse_inf_or_nan.
  destruct (str_eqb _ (lit "inf"%string) || str_eqb _ (lit "infinity"%string)).
  - intros [= <-]. now left.
  - destruct (str_eqb (List.map lower s) (lit "nan"%string)) eqn:E;
      [|discriminate].
    intros _. right. unfold str_eqb in E.
    now destruct (list_eq_dec N.eq_dec _ _).
Qed.

Lemma signless_not_nan (s : str) :
  Forall (fun a => signless a = true) s ->
  List.map lower s <> lit "nan"%string.
Proof.
  intros H E. destruct s as [|a s]; [discriminate|].
  inversion H as [|? ? Ha _]; subst.
  injection E as E _. unfold signless in Ha.
  apply andb_true_iff in Ha. destruct Ha as [_ Ha].
  rewrite E in Ha. discriminate.
Qed.

Lemma float_from_ascii_nonneg (s : str) (v : float) :
  Forall (fun a => signless a = true) s ->
  float_from_ascii s = Some v -> nonneg v = true.
Proof.
  intros Hs. unfold float_from_ascii.
  assert (Hgo : forall r, Forall (fun a => signless a = true) r ->
            match parse_decimal false r with
            | Some v => Some v
            | None => parse_inf_or_nan false r
            end = Some v -> nonneg v = true).
  { intros r Hr.
    destruct (parse_decimal false r) as [v'|] eqn:E.
    - intros [= <-]. now apply parse_decimal_nonneg in E.
    - intros H. apply parse_inf_or_nan_cases in H. destruct H as [->|H].
      + reflexivity.
      + now apply signless_not_nan in Hr. }
  destruct s as [|c r]; [now apply Hgo|].
  inversion Hs as [|? ? Hc Hr]; subst.
  destruct (c =? c_minus) eqn:Em.
  - unfold signless in Hc. rewrite Em in Hc. discriminate.
  - destruct (c =? c_plus); now apply Hgo.
Qed.

Lemma py_float_nonneg (s : str) (v : float) :
  Forall (fun c => kept c = true) s ->
  py_float s = Some v -> nonneg v = true.
Proof.
  intros Hs. unfold py_float.
  destruct (remove_underscores (to_ascii s)) as [t|] eqn:E; [|discriminate].
  apply float_from_ascii_nonneg, ascii_strip_Forall.
  apply (remove_underscores_Forall E).
  unfold to_ascii. apply Forall_map.
  eapply Forall_impl; [|exact Hs]. apply to_ascii_char_signless.
Qed.

End FloatFacts.

(* ================================================================== *)
(** * Facts about parse_price *)
(* ================================================================== *)

Module ParseFacts.

Import StrFacts FloatFacts.

Local Open Scope N_scope.

(** ** Only price characters reach the conversion *)

Lemma lstrip_incl (P : char -> Prop) (s : str) :
  Forall P s -> Forall P (lstrip s).
Proof.
  induction 1 as [|c s Hc Hs IH]; [constructor|].
  cbn [lstrip]. destruct (isspace c); [exact IH | now constructor].
Qed.

Lemma rstrip_incl (P : char -> Prop) (s : str) :
  Forall P s -> Forall P (rstrip s).
Proof.
  induction 1 as [|c s Hc Hs IH]; [constructor|].
  rewrite rstrip_cons. destruct (rstrip s) as [|x t].
  - destruct (isspace c); repeat constructor; exact Hc.
  - now constructor.
Qed.

Lemma replace_incl (P : char -> Prop) (c : char) (new s : str) :
  Forall P new -> Forall P s -> Forall P (replace c new s).
Proof.
  intros Hn. induction 1 as [|x s Hx Hs IH]; [constructor|].
  cbn [replace]. destruct (x =? c).
  - apply Forall_app. now split.
  - now constructor.
Qed.

Lemma delete_all_but_last_incl (P : char -> Prop) (c : char) (s : str) :
  Forall P s -> Forall P (delete_all_but_last c s).
Proof.
  induction 1 as [|x s Hx Hs IH]; [constructor|].
  cbn [delete_all_but_last].
  destruct ((x =? c) && contains c s); [exact IH | now constructor].
Qed.

Lemma clean_kept (text : str) : Forall (fun c => kept c = true) (clean text).
Proof.
  rewrite clean_eq. unfold strip.
  apply incl_Forall with (l1 := lstrip (rstrip (filter kept text))).
  - intros c Hc. now apply filter_In in Hc.
  - apply lstrip_incl, rstrip_incl.
    apply Forall_forall. intros c Hc. now apply filter_In in Hc.
Qed.

Lemma disambiguate_kept (s : str) :
  Forall (fun c => kept c = true) s ->
  Forall (fun c => kept c = true) (disambiguate s).
Proof.
  intros H. unfold disambiguate.
  assert (Hdot : Forall (fun c => kept c = true) [c_dot]) by now repeat constructor.
  assert (Hjoin : forall c t,
            Forall (fun c => kept c = true) t ->
            Forall (fun c => kept c = true)
              (join_empty (all_but_last (split c t)) ++ [c_dot] ++
               last_part (split c t))).
  { intros c t Ht. rewrite join_split_with. destruct (contains c t).
    - apply replace_incl; [exact Hdot|].
      now apply delete_all_but_last_incl.
    - now constructor. }
  destruct (contains c_comma s && contains c_dot s).
  - destruct (rfind c_comma s >? rfind c_dot s)%Z.
    + apply replace_incl; [exact Hdot|]. apply replace_incl; [constructor|exact H].
    + apply replace_incl; [constructor|exact H].
  - match goal with
    | |- Forall _ (if contains c_dot ?x then _ else _) => set (s1 := x)
    end.
    assert (H1 : Forall (fun c => kept c = true) s1).
    { subst s1. destruct (contains c_comma s && negb (contains c_dot s));
        [|exact H].
      destruct (1 <? count c_comma s)%nat.
      - now apply Hjoin.
      - now apply replace_incl. }
    destruct (contains c_dot s1); [|exact H1].
    destruct (1 <? count c_dot s1)%nat; [|exact H1].
    now apply Hjoin.
Qed.

(** ** Plain decimal numerals pass through unchanged *)

Lemma numeral_char_facts (c : char) :
  numeral_char c = true ->
  isspace c = false /\ kept c = true /\ ascii_space c = false /\
  (c =? c_space) = false /\ (c =? c_comma) = false /\
  (c =? c_underscore) = false /\ to_ascii_char c = c.
Proof.
  unfold numeral_char, ascii_digit. intros H.
  assert (Hr : (48 <= c /\ c <= 57) \/ c = 46).
  { apply orb_true_iff in H. destruct H as [H|H].
    - apply andb_true_iff in H. destruct H as [H1 H2].
      apply N.leb_le in H1. apply N.leb_le in H2. now left.
    - apply N.eqb_eq in H. now right. }
  clear H.
  assert (Hk : kept c = true).
  { unfold kept. destruct Hr as [[H1 H2]| ->]; [|reflexivity].
    assert (Hd : isdecimal c = true); [|now rewrite Hd].
    unfold isdecimal, todecimal, decimal_zeros. cbn [decimal_in].
    destruct (N.leb_spec 48 c); [|lia].
    destruct (N.ltb_spec c (48 + 10)); [reflexivity|lia]. }
  repeat split; try exact Hk.
  - unfold isspace. ncases.
  - unfold ascii_space. ncases.
  - unfold c_space. ncases.
  - unfold c_comma. ncases.
  - unfold c_underscore. ncases.
  - unfold to_ascii_char. destruct (N.ltb_spec c 127); [reflexivity|lia].
Qed.

Lemma numeral_lstrip (s : str) :
  forallb numeral_char s = true -> lstrip s = s.
Proof.
  destruct s as [|c s]; [reflexivity|]. cbn [forallb lstrip].
  intros H. apply andb_true_iff in H. destruct H as [H _].
  apply numeral_char_facts in H. destruct H as (-> & _). reflexivity.
Qed.

Lemma numeral_rstrip (s : str) :
  forallb numeral_char s = true -> rstrip s = s.
Proof.
  induction s as [|c s IH]; [reflexivity|]. cbn [forallb].
  intros H. apply andb_true_iff in H. destruct H as [Hc Hs].
  rewrite rstrip_cons, (IH Hs).
  apply numeral_char_facts in Hc. destruct Hc as (-> & _).
  now destruct s.
Qed.

Lemma numeral_filter (f : char -> bool) (s : str) :
  (forall c, numeral_char c = true -> f c = true) ->
  forallb numeral_char s = true -> filter f s = s.
Proof.
  intros Hf. induction s as [|c s IH]; [reflexivity|]. cbn [forallb filter].
  intros H. apply andb_true_iff in H. destruct H as [Hc Hs].
  now rewrite (Hf c Hc), (IH Hs).
Qed.

Lemma numeral_absent (x : char) (s : str) :
  (forall c, numeral_char c = true -> (c =? x) = false) ->
  forallb numeral_char s = true -> contains x s = false.
Proof.
  intros Hx. induction s as [|c s IH]; [reflexivity|].
  cbn [forallb contains existsb]. fold (contains x s).
  intros H. apply andb_true_iff in H. destruct H as [Hc Hs].
  now rewrite N.eqb_sym, (Hx c Hc), (IH Hs).
Qed.

Lemma numeral_clean (s : str) :
  forallb numeral_char s = true -> clean s = s.
Proof.
  intros H. rewrite clean_eq.
  rewrite (numeral_filter kept) by (exact H || (intros c Hc; now apply numeral_char_facts in Hc)).
  unfold strip. rewrite (numeral_rstrip s H), (numeral_lstrip s H).
  apply numeral_filter; [|exact H].
  intros c Hc. apply numeral_char_facts in Hc.
  destruct Hc as (_ & _ & _ & -> & _). reflexivity.
Qed.

Lemma numeral_to_ascii (s : str) :
  forallb numeral_char s = true -> to_ascii s = s.
Proof.
  induction s as [|c s IH]; [reflexivity|]. cbn [forallb to_ascii List.map].
  intros H. apply andb_true_iff in H. destruct H as [Hc Hs].
  apply numeral_char_facts in Hc. destruct Hc as (_ & _ & _ & _ & _ & _ & ->).
  f_equal. now apply IH.
Qed.

Lemma numeral_ascii_lstrip (s : str) :
  forallb numeral_char s = true -> ascii_lstrip s = s.
Proof.
  destruct s as [|c s]; [reflexivity|]. cbn [forallb ascii_lstrip].
  intros H. apply andb_true_iff in H. destruct H as [H _].
  apply numeral_char_facts in H. destruct H as (_ & _ & -> & _). reflexivity.
Qed.

Lemma numeral_ascii_strip (s : str) :
  forallb numeral_char s = true -> ascii_strip s = s.
Proof.
  intros H. unfold ascii_strip. rewrite (numeral_ascii_lstrip s H).
  rewrite numeral_ascii_lstrip; [apply rev_involutive|].
  rewrite forallb_forall in *. intros c Hc. apply H. now apply in_rev.
Qed.

(** With no comma and at most one dot nothing is rewritten. *)
Lemma disambiguate_plain (s : str) :
  contains c_comma s = false -> (count c_dot s <= 1)%nat ->
  disambiguate s = s.
Proof.
  intros Hc Hn. unfold disambiguate. rewrite Hc. cbn [andb].
  destruct (contains c_dot s); [|reflexivity].
  destruct (Nat.ltb_spec 1 (count c_dot s)); [lia|reflexivity].
Qed.

Lemma digits_count_dot (s : str) :
  forallb ascii_digit s = true -> count c_dot s = 0%nat.
Proof.
  induction s as [|c s IH]; [reflexivity|]. cbn [forallb count].
  intros H. apply andb_true_iff in H. destruct H as [Hc Hs].
  rewrite (IH Hs). unfold ascii_digit in Hc.
  apply andb_true_iff in Hc. destruct Hc as [H1 H2].
  apply N.leb_le in H1. apply N.leb_le in H2.
  destruct (N.eqb_spec c c_dot) as [E|]; [unfold c_dot in E; lia|reflexivity].
Qed.

Lemma count_app (x : char) (s t : str) :
  count x (s ++ t) = (count x s + count x t)%nat.
Proof.
  induction s as [|c s IH]; [reflexivity|]. cbn [app count].
  destruct (c =? x); now rewrite IH.
Qed.

Lemma digits_numeral (s : str) :
  forallb ascii_digit s = true -> forallb numeral_char s = true.
Proof.
  rewrite !forallb_forall. intros H c Hc. unfold numeral_char.
  now rewrite (H c Hc).
Qed.

Lemma plain_decimal_numeral (ip fp : str) :
  forallb ascii_digit ip = true -> forallb ascii_digit fp = true ->
  forallb numeral_char (plain_decimal ip fp) = true /\
  (count c_dot (plain_decimal ip fp) <= 1)%nat.
Proof.
  intros Hi Hf. unfold plain_decimal. rewrite forallb_app, count_app.
  rewrite (digits_numeral ip Hi), (digits_count_dot ip Hi).
  destruct fp as [|c fp]; [cbn; auto|].
  change (c_dot :: c :: fp) with ([c_dot] ++ c :: fp).
  rewrite forallb_app, count_app.
  rewrite (digits_numeral _ Hf), (digits_count_dot _ Hf).
  split; [reflexivity | cbn; lia].
Qed.

Lemma span_digits_app (ds rest : str) :
  forallb ascii_digit ds = true ->
  match rest with [] => True | c :: _ => ascii_digit c = false end ->
  span_digits (ds ++ rest) = (digit_values ds, rest).
Proof.
  intros Hd Hr. induction ds as [|c ds IH].
  - cbn [app digit_values List.map]. destruct rest as [|c r]; [reflexivity|].
    cbn [span_digits]. now rewrite Hr.
  - cbn [forallb] in Hd. apply andb_true_iff in Hd. destruct Hd as [Hc Hd].
    cbn [app span_digits]. rewrite Hc, (IH Hd). reflexivity.
Qed.

(** The conversion reads a plain decimal numeral digit by digit. *)
Lemma py_float_plain_decimal (ip fp : str) :
  ip <> [] ->
  forallb ascii_digit ip = true -> forallb ascii_digit fp = true ->
  py_float (plain_decimal ip fp) =
  Some (of_decimal false
          (digits_value (digit_values ip ++ digit_values fp))
          (- Z.of_nat (length fp))).
Proof.
  intros Hne Hi Hf.
  destruct (plain_decimal_numeral ip fp Hi Hf) as [Hnum _].
  unfold py_float. rewrite (numeral_to_ascii _ Hnum).
  unfold remove_underscores.
  rewrite (numeral_absent c_underscore);
    [|intros c Hc; now apply numeral_char_facts in Hc|exact Hnum].
  rewrite (numeral_ascii_strip _ Hnum).
  destruct ip as [|c ip]; [congruence|]. clear Hne.
  assert (Hc : ascii_digit c = true).
  { cbn [forallb] in Hi. now apply andb_true_iff in Hi. }
  unfold float_from_ascii, plain_decimal. cbn [app].
  assert (Hm : (c =? c_minus) = false /\ (c =? c_plus) = false).
  { unfold ascii_digit in Hc. apply andb_true_iff in Hc.
    destruct Hc as [H1 H2]. apply N.leb_le in H1. apply N.leb_le in H2.
    unfold c_minus, c_plus.
    split; [destruct (N.eqb_spec c 45) | destruct (N.eqb_spec c 43)];
      (lia || reflexivity). }
  destruct Hm as [-> ->].
  unfold parse_decimal.
  change (c :: ip ++ match fp with [] => [] | _ :: _ => c_dot :: fp end)
    with ((c :: ip) ++ match fp with [] => [] | _ :: _ => c_dot :: fp end).
  rewrite span_digits_app; [|exact Hi|now destruct fp].
  destruct fp as [|d fp].
  - cbn [digit_values List.map length]. rewrite app_nil_r.
    cbn [app parse_exponent]. reflexivity.
  - change (c_dot =? c_dot) with true. cbv iota.
    rewrite <- (app_nil_r (d :: fp)) at 1.
    rewrite span_digits_app; [|exact Hf|exact I].
    cbn [digit_values List.map app parse_exponent].
    f_equal. f_equal. cbn [length]. now rewrite length_map.
Qed.

Lemma parse_price_plain_decimal (ip fp : str) :
  forallb ascii_digit ip = true -> forallb ascii_digit fp = true ->
  parse_price (Some (plain_decimal ip fp)) = py_float (plain_decimal ip fp).
Proof.
  intros Hi Hf.
  destruct (plain_decimal_numeral ip fp Hi Hf) as [Hnum Hcount].
  unfold parse_price. rewrite (numeral_clean _ Hnum).
  rewrite disambiguate_plain; [reflexivity| |exact Hcount].
  apply numeral_absent; [|exact Hnum].
  intros c Hc. now apply numeral_char_facts in Hc.
Qed.

End ParseFacts.

(* ================================================================== *)
(** * The claims about parse_price *)
(* ================================================================== *)

Import StrFacts FloatFacts ParseFacts.

Lemma nonneg_le_zero (v : float) :
  nonneg v = true -> le (S754_zero false) v = true.
Proof. destruct v as [s|s| |s m e]; try destruct s; now cbn. Qed.

(** C3. When both ',' and '.' occur in the cleaned input, the separator
    [d] that occurs last is the decimal point: every occurrence of the
    other separator is deleted, then [d] is replaced by '.', and the
    result is what [float] converts. So parse_price("$1,234.56") and
    parse_price("1.234,56") are both 1234.56. *)
Theorem last_separator_is_decimal_point (text : str) :
  contains c_comma (clean text) = true ->
  contains c_dot (clean text) = true ->
  (exists d,
     last_separator (clean text) = Some d /\ is_separator d = true /\
     contains (other_separator d)
       (replace (other_separator d) [] (clean text)) = false /\
     parse_price (Some text) =
     py_float (replace d [c_dot]
                 (replace (other_separator d) [] (clean text)))) /\
  disambiguate (clean text) = last_separator_rule (clean text) /\
  parse_price (Some (lit "$1,234.56"%string)) = Some f_1234_56 /\
  parse_price (Some (lit "1.234,56"%string)) = Some f_1234_56.
Proof.
  intros Hc Hd.
  pose proof (disambiguate_both (clean text) Hc Hd) as Hrule.
  split; [|split; [exact Hrule|split; vm_compute; reflexivity]].
  destruct (last_separator_present (clean text) Hc) as (d & Hl & Hs).
  exists d. split; [exact Hl|]. split; [exact Hs|].
  split; [apply contains_replace_nil|].
  unfold parse_price. rewrite Hrule. unfold last_separator_rule.
  now rewrite Hl.
Qed.

(** C4 (amended). When only '.' occurs in the cleaned input, more than
    once, every occurrence but the last is deleted and the last one stays
    as the decimal point; so parse_price("1.234.567") is 1234.567. *)
Theorem dots_all_but_last_deleted (text : str) :
  contains c_comma (clean text) = false ->
  (1 < count c_dot (clean text))%nat ->
  parse_price (Some text) =
  py_float (delete_all_but_last c_dot (clean text)) /\
  count c_dot (delete_all_but_last c_dot (clean text)) = 1%nat /\
  parse_price (Some (lit "1.234.567"%string)) = Some f_1234_567.
Proof.
  intros Hc Hn. split; [|split].
  - unfold parse_price. now rewrite disambiguate_dots.
  - apply count_delete_all_but_last. rewrite <- count_contains.
    apply Nat.ltb_lt. lia.
  - vm_compute. reflexivity.
Qed.

(** C7 (amended). parse_price is invariant under the deletion of every
    space character (U+0020) and under the stripping of whitespace at
    both ends of the text. *)
Theorem parse_price_ignores_spaces (text : str) :
  parse_price (Some (replace c_space [] text)) = parse_price (Some text) /\
  parse_price (Some (strip text)) = parse_price (Some text).
Proof.
  unfold parse_price. now rewrite clean_delete_spaces, clean_strip.
Qed.

Module ReprFacts.

Lemma zeros_digits (n : nat) : forallb ascii_digit (zeros n) = true.
Proof. induction n as [|n IH]; [reflexivity|]. cbn. exact IH. Qed.

Lemma plain_decimal_point (ip fp : str) :
  fp <> [] -> plain_decimal ip fp = ip ++ c_dot :: fp.
Proof. destruct fp; [congruence | reflexivity]. Qed.

(** The positional layouts are plain decimal numerals. *)
Lemma repr_layout_positional (ds : str) (decpt : Z) :
  ds <> [] -> forallb ascii_digit ds = true -> (-4 < decpt <= 16)%Z ->
  exists ip fp,
    repr_layout ds decpt = plain_decimal ip fp /\
    forallb ascii_digit ip = true /\ forallb ascii_digit fp = true.
Proof.
  intros Hne Hd Hr. unfold repr_layout.
  destruct (Z.leb_spec decpt (-4)) as [L|_]; [lia|].
  destruct (Z.ltb_spec 16 decpt) as [L|_]; [lia|]. cbn [orb].
  destruct (Z.leb_spec decpt 0) as [L0|G0].
  - exists [c_zero], (zeros (Z.to_nat (- decpt)) ++ ds).
    rewrite plain_decimal_point.
    + split; [reflexivity|]. split; [reflexivity|].
      rewrite forallb_app, zeros_digits. exact Hd.
    + intros E. apply app_eq_nil in E. now destruct E.
  - destruct (Z.ltb_spec decpt (Z.of_nat (length ds))) as [Ln|Gn].
    + exists (firstn (Z.to_nat decpt) ds), (skipn (Z.to_nat decpt) ds).
      rewrite <- (firstn_skipn (Z.to_nat decpt) ds), forallb_app in Hd.
      apply andb_true_iff in Hd. destruct Hd as [H1 H2].
      rewrite plain_decimal_point; [auto|].
      intros E. apply (f_equal (@length char)) in E.
      rewrite length_skipn in E. cbn in E. lia.
    + exists (ds ++ zeros (Z.to_nat (decpt - Z.of_nat (length ds)))),
        [c_zero].
      rewrite plain_decimal_point by discriminate.
      rewrite <- app_assoc. split; [reflexivity|].
      split; [|reflexivity]. rewrite forallb_app, zeros_digits, Hd.
      reflexivity.
Qed.

End ReprFacts.

(** C8 (amended). parse_price reads a rendered value back as the same
    value when the rendering is positional: for every float v and every
    string s that is Python's rendering of v with the point at a position
    -4 < decpt <= 16 (zero and the values from 0.0001 up to, not
    including, 1e16; "1234.56" is one), parse_price(s) = v. *)
Theorem parse_price_idempotent_on_positional
    (v : float) (decpt : Z) (s : str) :
  py_repr_of v decpt s -> (-4 < decpt <= 16)%Z ->
  parse_price (Some s) = Some v.
Proof.
  intros (ds & Hne & Hd & _ & -> & Hf & _) Hr.
  destruct (@ReprFacts.repr_layout_positional ds decpt Hne Hd Hr)
    as (ip & fp & E & Hi & Hp).
  rewrite <- Hf, E. now apply parse_price_plain_decimal.
Qed.

(** C10. Every value parse_price returns is nonnegative: its sign bit is
    clear and 0 <= value holds. The filter deletes a sign along with the
    currency symbols, so parse_price("-12.50") is 12.5, although
    float("-12.50") is -12.5. *)
Theorem parse_price_nonnegative (text : option str) (v : float) :
  parse_price text = Some v ->
  nonneg v = true /\ le (S754_zero false) v = true /\
  parse_price (Some (lit "-12.50"%string)) = Some f_12_5 /\
  py_float (lit "-12.50"%string) = Some (SFopp f_12_5).
Proof.
  intros H.
  assert (Hn : nonneg v = true).
  { destruct text as [t|]; [|discriminate]. unfold parse_price in H.
    apply (@py_float_nonneg (disambiguate (clean t))); [|exact H].
    apply disambiguate_kept, clean_kept. }
  split; [exact Hn|]. split; [now apply nonneg_le_zero|].
  split; vm_compute; reflexivity.
Qed.

(* ================================================================== *)
(** * Concrete runs *)
(* ================================================================== *)

Example parse_price_comma_decimal :
  parse_price (Some (lit "123,45"%string)) =
  py_float (lit "123.45"%string).
Proof. vm_compute. reflexivity. Qed.

Example parse_price_grouped_commas :
  parse_price (Some (lit "1,234,567"%string)) = Some f_1234_567.
Proof. vm_compute. reflexivity. Qed.

Example parse_price_empty : parse_price (Some []) = None.
Proof. vm_compute. reflexivity. Qed.

Example parse_price_none : parse_price None = None.
Proof. reflexivity. Qed.

Example parse_price_scenario :
  parse_price (Some (lit "US$ 2.500,00"%string)) = Some f_2500.
Proof. vm_compute. reflexivity. Qed.

Example parse_price_inner_tab :
  parse_price (Some [49; 9; 50]) = None /\
  parse_price (Some [49; 50]) = Some f_12.
Proof. split; vm_compute; reflexivity. Qed.

(** An exponent is not read as one: the letter and the sign are dropped
    with the currency symbols. *)
Example parse_price_exponent :
  parse_price (Some (lit "1e+16"%string)) = py_float (lit "116"%string).
Proof. vm_compute. reflexivity. Qed.

(** The scenario of the specification: the page shows "US$ 2.500,00";
    with target 2000 nothing alerts, with target 3000 the alert fires. *)
Example scenario_target_2000 :
  stdout (snd (Scenario.run_once
                 (Scenario.world_with [Scenario.laptop_2000]))) =
  [InfoLine (lit "laptop"%string) (Some f_2500) (Some (NInt 2000))
     Scenario.url_laptop;
   NoAlerts].
Proof. vm_compute. reflexivity. Qed.

Example scenario_target_3000 :
  stdout (snd (Scenario.run_once
                 (Scenario.world_with [Scenario.laptop_3000]))) =
  [InfoLine (lit "laptop"%string) (Some f_2500) (Some (NInt 3000))
     Scenario.url_laptop;
   AlertLine (Some f_2500) (Some (NInt 3000))].
Proof. vm_compute. reflexivity. Qed.

Example scenario_selector_not_found :
  fst (Scenario.run_once (Scenario.world_with [Scenario.missing])) =
  Returned tt /\
  List.map (fun o => (o_price o, o_status o))
    (rows (snd (Scenario.run_once (Scenario.world_with [Scenario.missing]))))
  = [(None, status_selector_not_found)].
Proof. split; vm_compute; reflexivity. Qed.

Lemma last_separator_is_decimal_point_witness :
  (exists d,
     last_separator (lit "1,234.56"%string) = Some d /\
     is_separator d = true /\
     contains (other_separator d)
       (replace (other_separator d) [] (lit "1,234.56"%string)) = false /\
     parse_price (Some (lit "$1,234.56"%string)) =
     py_float (replace d [c_dot]
                 (replace (other_separator d) [] (lit "1,234.56"%string)))) /\
  disambiguate (lit "1,234.56"%string) = lit "1234.56"%string /\
  parse_price (Some (lit "$1,234.56"%string)) = Some f_1234_56 /\
  parse_price (Some (lit "1.234,56"%string)) = Some f_1234_56.
Proof.
  apply (last_separator_is_decimal_point (lit "$1,234.56"%string));
    vm_compute; reflexivity.
Defined.

(** Against C4 as written: parse_price("1.234.567") is not 1234567. *)
Lemma dots_example_is_not_1234567 :
  parse_price (Some (lit "1.234.567"%string)) <> Some f_1234567.
Proof. vm_compute. discriminate. Qed.

Lemma dots_all_but_last_deleted_witness :
  parse_price (Some (lit "1.234.567"%string)) =
  py_float (lit "1234.567"%string) /\
  count c_dot (lit "1234.567"%string) = 1%nat /\
  parse_price (Some (lit "1.234.567"%string)) = Some f_1234_567.
Proof.
  apply (dots_all_but_last_deleted (lit "1.234.567"%string));
    vm_compute; [reflexivity | lia].
Defined.

(** Against C7 as written: a tab inside the text is not deleted, so
    "1<TAB>2" does not parse, while "12" does. *)
Lemma tab_is_not_ignored :
  parse_price (Some [49; 9; 50]) <>
  parse_price (Some (delete_whitespace [49; 9; 50])).
Proof. vm_compute. discriminate. Qed.

(** Against C8 as written: parse_price returns 1e16 (for the text
    "10000000000000000"), Python renders that value as "1e+16", and
    parse_price("1e+16") is 116.0: the letter and the sign are dropped
    with the currency symbols. *)
Lemma exponent_rendering_not_read_back :
  parse_price (Some (lit "10000000000000000"%string)) = Some f_1e16 /\
  py_repr_of f_1e16 17 (lit "1e+16"%string) /\
  parse_price (Some (lit "1e+16"%string)) <> Some f_1e16.
Proof.
  split; [vm_compute; reflexivity|]. split.
  - exists (lit "1"%string).
    split; [discriminate|]. split; [reflexivity|].
    split; [left; discriminate|].
    split; [vm_compute; reflexivity|].
    split; [vm_compute; reflexivity|].
    intros ds' decpt' Hne _ _. destruct ds'; [congruence|]. cbn. lia.
  - vm_compute. discriminate.
Qed.

Lemma parse_price_idempotent_on_positional_witness :
  py_repr_of f_0_5 0 (lit "0.5"%string) /\
  parse_price (Some (lit "0.5"%string)) = Some f_0_5.
Proof.
  assert (H : py_repr_of f_0_5 0 (lit "0.5"%string)).
  { exists (lit "5"%string).
    split; [discriminate|]. split; [reflexivity|].
    split; [left; discriminate|].
    split; [vm_compute; reflexivity|].
    split; [vm_compute; reflexivity|].
    intros ds' decpt' Hne _ _. destruct ds'; [congruence|]. cbn. lia. }
  split; [exact H|].
  apply (@parse_price_idempotent_on_positional f_0_5 0
           (lit "0.5"%string) H).
  lia.
Defined.

(** The example of the specification. *)
Example parse_price_1234_56 :
  parse_price (Some (lit "1234.56"%string)) = Some f_1234_56 /\
  repr_layout (lit "123456"%string) 4 = lit "1234.56"%string.
Proof. split; vm_compute; reflexivity. Qed.

Lemma parse_price_nonnegative_witness :
  nonneg f_12_5 = true /\ le (S754_zero false) f_12_5 = true /\
  parse_price (Some (lit "-12.50"%string)) = Some f_12_5 /\
  py_float (lit "-12.50"%string) = Some (SFopp f_12_5).
Proof.
  apply (@parse_price_nonnegative (Some (lit "-12.50"%string)) f_12_5).
  vm_compute. reflexivity.
Defined.

(** The example shop with its five products: the first one alerts (2500
    <= 3000), the last one does not (2500 > 2000), and the three in
    between end in the three kinds of failure. *)
Lemma any_alerts_iff_some_product_alerts_witness :
  exists new : list Observation,
    rows (snd (Scenario.check_products Scenario.all_products false
                 (set_price_history (Some []) (Scenario.world None)))) =
    new /\
    Forall2 records_for Scenario.all_products new /\
    existsb alerting new = true /\
    List.map alerting new = [true; false; false; false; false].
Proof.
  destruct (@any_alerts_iff_some_product_alerts
              Scenario.http_get Scenario.Tag Scenario.select_one
              Scenario.get_text Scenario.utcnow
              Scenario.all_products false
              (set_price_history (Some []) (Scenario.world None)) true
              (snd (Scenario.check_products Scenario.all_products false
                      (set_price_history (Some []) (Scenario.world None)))))
    as (new & H1 & H2 & H3 & _).
  - vm_compute. reflexivity.
  - exists new. split; [exact H1|]. split; [exact H2|].
    split; [now rewrite H3|].
    cbn [rows set_price_history price_history app] in H1.
    rewrite <- H1. vm_compute. reflexivity.
Defined.

(** Against C5 as written: the product with the integer target 2^63 is
    processed, its page is requested and its price parses, and it has no
    row: [record] raises OverflowError, which ends the run. *)
Lemma processed_product_without_observation :
  requests (snd (Scenario.run_once
                   (Scenario.world_with [Scenario.laptop_huge]))) =
  [p_url Scenario.laptop_huge] /\
  rows (snd (Scenario.run_once
               (Scenario.world_with [Scenario.laptop_huge]))) = [] /\
  fst (Scenario.run_once (Scenario.world_with [Scenario.laptop_huge])) =
  Raised OverflowError.
Proof. repeat split; vm_compute; reflexivity. Qed.

Lemma one_observation_per_product_witness :
  exists new : list Observation,
    rows (snd (Scenario.run_once (Scenario.world_with Scenario.all_products)))
    = new /\
    Forall2 records_for Scenario.all_products new /\
    List.map o_status new =
    [status_ok; status_fetch_error (lit "timed out"%string);
     status_selector_not_found; status_parse_failed; status_ok] /\
    events (snd (Scenario.run_once
                   (Scenario.world_with Scenario.all_products))) =
    flat_map row_events new.
Proof.
  destruct (@one_observation_per_product
              Scenario.http_get Scenario.Tag Scenario.select_one
              Scenario.get_text Scenario.utcnow
              (Scenario.world_with Scenario.all_products)
              {| cfg_products := Some Scenario.all_products |}
              Scenario.all_products eq_refl eq_refl)
    as (new & rest & H1 & _ & _ & H4 & H5 & _).
  - discriminate.
  - exists new. split; [exact H1|].
    assert (Hret : fst (Watch.run_once Scenario.http_get Scenario.select_one
                          Scenario.get_text Scenario.utcnow
                          (Scenario.world_with Scenario.all_products)) =
                   Returned tt) by (vm_compute; reflexivity).
    destruct (H5 tt Hret) as [H6 Hrest].
    split; [exact H6|].
    cbn [rows Scenario.world_with Scenario.world price_history events app]
      in H1, H4.
    assert (Hst : List.map o_status new =
      [status_ok; status_fetch_error (lit "timed out"%string);
       status_selector_not_found; status_parse_failed; status_ok])
      by (rewrite <- H1; vm_compute; reflexivity).
    split; [exact Hst|].
    unfold Scenario.run_once. rewrite H4.
    destruct Hrest as [-> | ->]; [now rewrite app_nil_r|].
    exfalso.
    assert (Hlast : last (events (snd (Watch.run_once Scenario.http_get
                            Scenario.select_one Scenario.get_text
                            Scenario.utcnow
                            (Scenario.world_with Scenario.all_products))))
                      (Printed NoProducts) <> Printed NoAlerts)
      by (vm_compute; discriminate).
    apply Hlast. rewrite H4. apply last_last.
Defined.

Lemma empty_config_fails_fast_witness :
  (exists code,
     fst (Scenario.run_once (Scenario.world_with [])) = Exited code /\
     code <> 0%Z) /\
  requests (snd (Scenario.run_once (Scenario.world_with []))) = [] /\
  rows (snd (Scenario.run_once (Scenario.world_with []))) = [] /\
  stdout (snd (Scenario.run_once (Scenario.world_with []))) = [] /\
  stderr (snd (Scenario.run_once (Scenario.world_with []))) = [NoProducts].
Proof.
  destruct (@empty_config_fails_fast
              Scenario.http_get Scenario.Tag Scenario.select_one
              Scenario.get_text Scenario.utcnow (Scenario.world_with []))
    as (H1 & H2 & H3 & _ & H5 & _).
  - right. exists {| cfg_products := Some [] |}. split; [reflexivity|].
    right. reflexivity.
  - split; [exact H1|]. split; [exact H2|]. split; [exact H3|].
    split; [exact H5|]. vm_compute. reflexivity.
Defined.

(** Against C9 as written: a completed run with an alert prints the
    product's two lines and no summary line after them. *)
Lemma no_final_line_after_alert :
  fst (Scenario.run_once (Scenario.world_with [Scenario.laptop_3000])) =
  Returned tt /\
  ~ (exists pre l,
       stdout (snd (Scenario.run_once
                      (Scenario.world_with [Scenario.laptop_3000]))) =
       pre ++ [l] /\ is_summary l = true).
Proof.
  split; [vm_compute; reflexivity|].
  intros (pre & l & E & Hl).
  apply (f_equal (@rev Line)) in E. rewrite rev_app_distr in E.
  vm_compute in E. injection E as E _. subst l. discriminate Hl.
Qed.

Lemma final_line_only_without_alerts_witness :
  exists new : list Observation,
    existsb alerting new = false /\
    stdout (snd (Scenario.run_once
                   (Scenario.world_with [Scenario.laptop_2000; Scenario.down])))
    = flat_map report_lines new ++ [NoAlerts].
Proof.
  destruct (@final_line_only_without_alerts
              Scenario.http_get Scenario.Tag Scenario.select_one
              Scenario.get_text Scenario.utcnow
              (Scenario.world_with [Scenario.laptop_2000; Scenario.down])
              {| cfg_products := Some [Scenario.laptop_2000; Scenario.down] |}
              [Scenario.laptop_2000; Scenario.down] tt eq_refl eq_refl)
    as (new & _ & _ & H3).
  - discriminate.
  - vm_compute. reflexivity.
  - exists new.
    destruct (existsb alerting new) eqn:E.
    + exfalso. rewrite app_nil_r in H3. cbn [app stdout Scenario.world_with
        Scenario.world] in H3.
      assert (Hs : In NoAlerts (flat_map report_lines new)).
      { rewrite <- H3. vm_compute. auto. }
      pose proof (report_lines_not_summary new) as Hn.
      rewrite Forall_forall in Hn. specialize (Hn _ Hs). discriminate Hn.
    + split; [reflexivity | exact H3].
Defined.

(* ================================================================== *)
(** * Further properties of parse_price *)
(* ================================================================== *)

Module ParseMore.

Import StrFacts FloatFacts ParseFacts.

Local Open Scope N_scope.

(** ** Counting separators *)

Lemma count_replace_nil_same (c : char) (s : str) :
  count c (replace c [] s) = 0%nat.
Proof.
  induction s as [|x s IH]; [reflexivity|].
  cbn [replace app]. destruct (x =? c) eqn:E; [exact IH|].
  cbn [count]. now rewrite E.
Qed.

Lemma count_replace_nil_other (c x : char) (s : str) :
  (c =? x) = false -> count c (replace x [] s) = count c s.
Proof.
  intros Hcx. induction s as [|y s IH]; [reflexivity|].
  cbn [replace app count]. destruct (y =? x) eqn:E.
  - apply N.eqb_eq in E. subst y. rewrite N.eqb_sym, Hcx. exact IH.
  - cbn [count]. now rewrite IH.
Qed.

Lemma count_replace_one (c d : char) (s : str) :
  (c =? d) = false ->
  count d (replace c [d] s) = (count c s + count d s)%nat.
Proof.
  intros Hcd. induction s as [|y s IH]; [reflexivity|].
  cbn [replace app count]. destruct (y =? c) eqn:E.
  - apply N.eqb_eq in E. subst y. rewrite Hcd.
    cbn [count]. rewrite N.eqb_refl, IH. reflexivity.
  - cbn [count]. destruct (y =? d); rewrite IH; lia.
Qed.

Lemma count_absent (c : char) (s : str) :
  contains c s = false -> count c s = 0%nat.
Proof.
  intros H. pose proof (count_contains c s) as Hc. rewrite H in Hc.
  apply Nat.ltb_ge in Hc. lia.
Qed.

Lemma contains_delete_all_but_last (c x : char) (s : str) :
  contains x s = false -> contains x (delete_all_but_last c s) = false.
Proof.
  induction s as [|y s IH]; [reflexivity|].
  cbn [contains existsb delete_all_but_last]. fold (contains x s).
  intros H. apply orb_false_iff in H. destruct H as [H1 H2].
  destruct ((y =? c) && contains c s); [now apply IH|].
  cbn [contains existsb]. fold (contains x (delete_all_but_last c s)).
  now rewrite H1, IH.
Qed.

Lemma delete_all_but_last_single (c : char) (s : str) :
  (count c s <= 1)%nat -> delete_all_but_last c s = s.
Proof.
  induction s as [|y s IH]; [reflexivity|].
  cbn [count delete_all_but_last]. destruct (y =? c) eqn:E; intros H.
  - assert (Hc : contains c s = false).
    { rewrite <- count_contains. apply Nat.ltb_ge. lia. }
    rewrite Hc. cbn [andb]. now rewrite delete_all_but_last_absent.
  - cbn [andb]. now rewrite IH.
Qed.

(** ** The three ways through lines 62-77 *)

(** Only commas: every comma but the last is deleted and the last one
    becomes the decimal point. *)
Lemma disambiguate_commas (s : str) :
  contains c_comma s = true -> contains c_dot s = false ->
  disambiguate s = replace c_comma [c_dot] (delete_all_but_last c_comma s).
Proof.
  intros Hc Hd. unfold disambiguate. rewrite Hc, Hd. cbn [andb negb].
  set (r := replace c_comma [c_dot] (delete_all_but_last c_comma s)).
  assert (Hs1 : (if (1 <? count c_comma s)%nat
                 then join_empty (all_but_last (split c_comma s)) ++
                      [c_dot] ++ last_part (split c_comma s)
                 else replace c_comma [c_dot] s) = r).
  { subst r. destruct (Nat.ltb_spec 1 (count c_comma s)).
    - now rewrite join_split_with, Hc.
    - now rewrite delete_all_but_last_single. }
  rewrite Hs1.
  assert (Hn : count c_dot r = 1%nat).
  { subst r. rewrite count_replace_one by reflexivity.
    rewrite (count_delete_all_but_last _ _ Hc).
    rewrite count_absent; [reflexivity|].
    now apply contains_delete_all_but_last. }
  rewrite <- count_contains, Hn. reflexivity.
Qed.

(** Only dots: every dot but the last is deleted. *)
Lemma disambiguate_only_dots (s : str) :
  contains c_comma s = false ->
  disambiguate s = delete_all_but_last c_dot s.
Proof.
  intros Hc. destruct (Nat.ltb_spec 1 (count c_dot s)) as [H|H].
  - now apply disambiguate_dots.
  - rewrite delete_all_but_last_single by exact H.
    now apply disambiguate_plain.
Qed.

End ParseMore.

Import ParseMore.

(** X1. parse_price looks only at digits, commas, dots and whitespace:
    deleting every other character of the text beforehand (currency
    symbols, letters, signs) does not change the result. *)
Theorem parse_price_ignores_other_characters (text : str) :
  parse_price (Some (re_sub_non_price text)) = parse_price (Some text).
Proof.
  unfold parse_price, re_sub_non_price. f_equal. f_equal.
  rewrite !StrFacts.clean_eq. now rewrite StrFacts.filter_idem.
Qed.

(** X2. When the cleaned text has commas and no dot, every comma but the
    last is deleted and the last one is read as the decimal point: the
    string converted has exactly one dot. *)
Theorem commas_only_last_is_decimal_point (text : str) :
  contains c_comma (clean text) = true ->
  contains c_dot (clean text) = false ->
  parse_price (Some text) =
  py_float (replace c_comma [c_dot]
              (delete_all_but_last c_comma (clean text))) /\
  count c_dot (disambiguate (clean text)) = 1%nat /\
  contains c_comma (disambiguate (clean text)) = false.
Proof.
  intros Hc Hd. rewrite (disambiguate_commas _ Hc Hd).
  split; [unfold parse_price; now rewrite (disambiguate_commas _ Hc Hd)|].
  split.
  - rewrite count_replace_one by reflexivity.
    rewrite (StrFacts.count_delete_all_but_last _ _ Hc).
    rewrite count_absent; [reflexivity|].
    now apply contains_delete_all_but_last.
  - rewrite <- StrFacts.count_contains. apply Nat.ltb_ge.
    assert (H : forall s, count c_comma (replace c_comma [c_dot] s) = 0%nat).
    { induction s as [|y s IH]; [reflexivity|].
      cbn [replace app]. destruct (y =? c_comma) eqn:E.
      - cbn [count]. change (c_dot =? c_comma) with false. exact IH.
      - cbn [count]. now rewrite E. }
    rewrite H. lia.
Qed.

Lemma commas_only_last_is_decimal_point_witness :
  parse_price (Some (lit "EUR 1,234,56"%string)) =
  py_float (lit "1234.56"%string) /\
  count c_dot (disambiguate (lit "1,234,56"%string)) = 1%nat /\
  contains c_comma (disambiguate (lit "1,234,56"%string)) = false.
Proof.
  apply (commas_only_last_is_decimal_point (lit "EUR 1,234,56"%string));
    vm_compute; reflexivity.
Defined.

Module FloatMore.

Import StrFacts FloatFacts ParseFacts ParseMore.

Local Open Scope N_scope.

(** ** What reaches the conversion *)

Lemma to_ascii_char_price (c : char) :
  kept c = true -> price_ascii (to_ascii_char c) = true.
Proof.
  unfold kept, to_ascii_char. intros H.
  assert (Hr : forall a,
            (48 <= a /\ a <= 57) \/ a = 44 \/ a = 46 \/
            (9 <= a /\ a <= 13) \/ (28 <= a /\ a <= 32) ->
            price_ascii a = true).
  { intros a Ha. unfold price_ascii, ascii_digit, c_comma, c_dot.
    destruct Ha as [[H1 H2]|[->|[->|[[H1 H2]|[H1 H2]]]]];
      try reflexivity.
    - apply N.leb_le in H1. apply N.leb_le in H2. now rewrite H1, H2.
    - apply N.leb_le in H1. apply N.leb_le in H2. rewrite H1, H2.
      cbn. apply orb_true_iff. left. apply orb_true_r.
    - apply N.leb_le in H1. apply N.leb_le in H2. rewrite H1, H2.
      apply orb_true_r. }
  destruct (N.ltb_spec c 127) as [Hc|Hc].
  - apply Hr.
    apply orb_true_iff in H. destruct H as [H|Hsp].
    + apply orb_true_iff in H. destruct H as [H|Hdot].
      * apply orb_true_iff in H. destruct H as [Hdec|Hcomma].
        -- unfold isdecimal in Hdec.
           destruct (todecimal c) as [d|] eqn:E; [|discriminate].
           left. now apply (todecimal_ascii E).
        -- apply N.eqb_eq in Hcomma. right. left. exact Hcomma.
      * apply N.eqb_eq in Hdot. right. right. left. exact Hdot.
    + right. right. right. now apply isspace_ascii.
  - destruct (isspace c) eqn:Esp; [reflexivity|].
    destruct (todecimal c) as [d|] eqn:E.
    + apply Hr. left. apply todecimal_lt_10 in E. unfold c_zero. lia.
    + exfalso. unfold isdecimal in H. rewrite E in H. cbn [orb] in H.
      rewrite orb_false_r in H. apply orb_true_iff in H. destruct H as [H|H].
      * apply N.eqb_eq in H. unfold c_comma in H. lia.
      * apply N.eqb_eq in H. unfold c_dot in H. lia.
Qed.

Lemma to_ascii_char_digit (c : char) :
  ascii_digit (to_ascii_char c) = true -> isdecimal c = true.
Proof.
  unfold to_ascii_char, isdecimal.
  destruct (N.ltb_spec c 127) as [Hc|Hc].
  - unfold ascii_digit. intros H. apply andb_true_iff in H.
    destruct H as [H1 H2]. unfold todecimal, decimal_zeros.
    cbn [decimal_in]. rewrite H1.
    apply N.leb_le in H2. destruct (N.ltb_spec c (48 + 10)); [reflexivity|lia].
  - destruct (isspace c); [discriminate|].
    destruct (todecimal c); [reflexivity|discriminate].
Qed.

Lemma price_ascii_signless (a : char) :
  price_ascii a = true -> signless a = true.
Proof.
  unfold price_ascii, ascii_digit, c_comma, c_dot. intros H.
  apply signless_range.
  apply orb_true_iff in H. destruct H as [H|H].
  - apply orb_true_iff in H. destruct H as [H|H].
    + apply orb_true_iff in H. destruct H as [H|H].
      * apply orb_true_iff in H. destruct H as [H|H].
        -- apply andb_true_iff in H. destruct H as [H1 H2].
           apply N.leb_le in H1. apply N.leb_le in H2. now left.
        -- apply N.eqb_eq in H. right. now left.
      * apply N.eqb_eq in H. right. right. now left.
    + apply andb_true_iff in H. destruct H as [H1 H2].
      apply N.leb_le in H1. apply N.leb_le in H2. right. right. right. now left.
  - apply andb_true_iff in H. destruct H as [H1 H2].
    apply N.leb_le in H1. apply N.leb_le in H2. right. right. right. now right.
Qed.

Lemma clean_Forall (P : char -> Prop) (text : str) :
  Forall P text -> Forall P (clean text).
Proof.
  intros H. rewrite clean_eq. unfold strip.
  apply incl_Forall with (l1 := filter kept text).
  - intros c Hc. apply filter_In in Hc. destruct Hc as [Hc _].
    revert c Hc. apply Forall_forall.
    apply lstrip_incl, rstrip_incl, Forall_forall. auto.
  - apply incl_Forall with (l1 := text); [|exact H].
    intros c Hc. now apply filter_In in Hc.
Qed.

Lemma disambiguate_Forall (P : char -> Prop) (s : str) :
  P c_dot -> Forall P s -> Forall P (disambiguate s).
Proof.
  intros Pdot H. unfold disambiguate.
  assert (Hdot : Forall P [c_dot]) by now repeat constructor.
  assert (Hjoin : forall c t, Forall P t ->
            Forall P (join_empty (all_but_last (split c t)) ++ [c_dot] ++
                      last_part (split c t))).
  { intros c t Ht. rewrite join_split_with. destruct (contains c t).
    - apply replace_incl; [exact Hdot|].
      now apply delete_all_but_last_incl.
    - now constructor. }
  destruct (contains c_comma s && contains c_dot s).
  - destruct (rfind c_comma s >? rfind c_dot s)%Z.
    + apply replace_incl; [exact Hdot|].
      apply replace_incl; [constructor|exact H].
    + apply replace_incl; [constructor|exact H].
  - match goal with
    | |- Forall _ (if contains c_dot ?x then _ else _) => set (s1 := x)
    end.
    assert (H1 : Forall P s1).
    { subst s1. destruct (contains c_comma s && negb (contains c_dot s));
        [|exact H].
      destruct (1 <? count c_comma s)%nat.
      - now apply Hjoin.
      - now apply replace_incl. }
    destruct (contains c_dot s1); [|exact H1].
    destruct (1 <? count c_dot s1)%nat; [|exact H1].
    now apply Hjoin.
Qed.

(** The string that [parse_price] hands to [float]. *)
Lemma converted_chars (P : char -> Prop) (text : str) :
  P c_dot -> Forall P text ->
  Forall (fun c => kept c = true /\ P c) (disambiguate (clean text)).
Proof.
  intros Pdot H. apply Forall_and.
  - apply disambiguate_kept, clean_kept.
  - apply disambiguate_Forall; [exact Pdot|]. now apply clean_Forall.
Qed.

(** ** A numeral needs a digit *)

Lemma span_digits_none (s : str) :
  Forall (fun a => ascii_digit a = false) s -> span_digits s = ([], s).
Proof.
  destruct 1 as [|a s Ha _]; [reflexivity|].
  cbn [span_digits]. now rewrite Ha.
Qed.

Lemma parse_decimal_no_digit (neg : bool) (s : str) :
  Forall (fun a => ascii_digit a = false) s -> parse_decimal neg s = None.
Proof.
  intros H. unfold parse_decimal. rewrite (span_digits_none H).
  destruct s as [|c r]; [reflexivity|].
  destruct (c =? c_dot); [|reflexivity].
  inversion H as [|? ? _ Hr]; subst. now rewrite (span_digits_none Hr).
Qed.

Lemma parse_inf_or_nan_price (neg : bool) (s : str) :
  Forall (fun a => price_ascii a = true) s -> parse_inf_or_nan neg s = None.
Proof.
  intros H. unfold parse_inf_or_nan.
  assert (Hno : forall name, (exists x r, name = x :: r /\ 97 <= x) ->
            str_eqb (List.map lower s) name = false).
  { intros name (x & r & -> & Hx).
    destruct (str_eqb (List.map lower s) (x :: r)) eqn:E; [|reflexivity].
    apply str_eqb_eq in E. destruct s as [|a s']; [discriminate|].
    injection E as E _. inversion H as [|? ? Ha _]; subst.
    exfalso. clear -Ha Hx. unfold price_ascii, ascii_digit, lower in *.
    assert (Hl : a <= 57).
    { unfold c_comma, c_dot in Ha.
      repeat (apply orb_true_iff in Ha; destruct Ha as [Ha|Ha]);
        repeat (apply andb_true_iff in Ha; destruct Ha as [Ha Ha']);
        repeat match goal with
               | X : (_ <=? _) = true |- _ => apply N.leb_le in X
               | X : (_ =? _) = true |- _ => apply N.eqb_eq in X
               end; lia. }
    destruct (N.leb_spec 65 a); [lia|]. cbn [andb] in Hx. lia. }
  rewrite !Hno; [reflexivity | | |];
    eexists; eexists; (split; [reflexivity|]); cbn; lia.
Qed.

Lemma float_from_ascii_no_digit (s : str) :
  Forall (fun a => price_ascii a = true /\ ascii_digit a = false) s ->
  float_from_ascii s = None.
Proof.
  intros H. apply Forall_and_inv in H. destruct H as [Hp Hd].
  unfold float_from_ascii.
  destruct s as [|c r].
  - rewrite parse_decimal_no_digit by constructor.
    now apply parse_inf_or_nan_price.
  - inversion Hp as [|? ? Hc _]; subst.
    apply price_ascii_signless in Hc. unfold signless in Hc.
    apply andb_true_iff in Hc. destruct Hc as [Hm _].
    apply negb_true_iff in Hm. rewrite Hm.
    destruct (c =? c_plus) eqn:Eplus.
    + apply N.eqb_eq in Eplus. subst c.
      inversion Hp as [|? ? Hc _]; subst. discriminate Hc.
    + rewrite parse_decimal_no_digit by exact Hd.
      now apply parse_inf_or_nan_price.
Qed.

Lemma py_float_no_digit (s : str) :
  Forall (fun c => kept c = true /\ isdecimal c = false) s ->
  py_float s = None.
Proof.
  intros H. unfold py_float.
  destruct (remove_underscores (to_ascii s)) as [t|] eqn:E; [|reflexivity].
  apply float_from_ascii_no_digit, ascii_strip_Forall.
  apply (remove_underscores_Forall E).
  unfold to_ascii. apply Forall_map.
  eapply Forall_impl; [|exact H]. cbv beta. intros c [Hk Hd]. split.
  - now apply to_ascii_char_price.
  - destruct (ascii_digit (to_ascii_char c)) eqn:Ea; [|reflexivity].
    apply to_ascii_char_digit in Ea. congruence.
Qed.

End FloatMore.

Import FloatMore.

(** X3. A text without any decimal digit (empty, blank, "sold out", a
    lone currency symbol or separator) never parses: the result is
    None. *)
Theorem parse_price_without_digit (text : str) :
  Forall (fun c => isdecimal c = false) text ->
  parse_price (Some text) = None.
Proof.
  intros H. unfold parse_price. apply py_float_no_digit.
  apply (@converted_chars (fun c => isdecimal c = false) text);
    [reflexivity | exact H].
Qed.

Lemma parse_price_without_digit_witness :
  parse_price (Some (lit "sold out, US$ .-"%string)) = None.
Proof.
  apply parse_price_without_digit.
  repeat (constructor; [vm_compute; reflexivity|]). constructor.
Defined.


Module DotsMore.

Import StrFacts FloatFacts ParseFacts ParseMore FloatMore.

Local Open Scope N_scope.

(** ** No comma is left *)

Lemma count_replace_away (c d : char) (s : str) :
  (d =? c) = false -> count c (replace c [d] s) = 0%nat.
Proof.
  intros Hdc. induction s as [|y s IH]; [reflexivity|].
  cbn [replace app]. destruct (y =? c) eqn:E.
  - cbn [count]. now rewrite Hdc.
  - cbn [count]. now rewrite E.
Qed.

Lemma contains_of_count (c : char) (s : str) :
  count c s = 0%nat -> contains c s = false.
Proof. intros H. rewrite <- count_contains, H. reflexivity. Qed.

Lemma disambiguate_no_comma (s : str) :
  contains c_comma (disambiguate s) = false.
Proof.
  destruct (contains c_comma s) eqn:Hc.
  - destruct (contains c_dot s) eqn:Hd.
    + rewrite (disambiguate_both s Hc Hd). unfold last_separator_rule.
      destruct (last_separator_present s Hc) as (d & -> & Hsep).
      unfold is_separator in Hsep. apply orb_true_iff in Hsep.
      destruct Hsep as [E|E]; apply N.eqb_eq in E; subst d.
      * apply contains_of_count. now apply count_replace_away.
      * change (other_separator c_dot) with c_comma.
        rewrite replace_same. apply contains_replace_nil.
    + rewrite (disambiguate_commas s Hc Hd).
      apply contains_of_count. now apply count_replace_away.
  - rewrite (disambiguate_only_dots s Hc).
    now apply contains_delete_all_but_last.
Qed.

Lemma to_ascii_char_comma (c : char) :
  (to_ascii_char c =? c_comma) = (c =? c_comma).
Proof.
  unfold to_ascii_char, c_comma, c_space, c_zero, c_qmark.
  destruct (N.ltb_spec c 127) as [Hc|Hc]; [reflexivity|].
  destruct (N.eqb_spec c 44); [lia|].
  destruct (isspace c); [reflexivity|].
  destruct (todecimal c) as [d|]; [|reflexivity].
  destruct (N.eqb_spec (48 + d) 44); [lia|reflexivity].
Qed.

(** ** A numeral has at most one point *)

Lemma to_ascii_char_dot (c : char) :
  (to_ascii_char c =? c_dot) = (c =? c_dot).
Proof.
  unfold to_ascii_char, c_dot, c_space, c_zero, c_qmark.
  destruct (N.ltb_spec c 127) as [Hc|Hc]; [reflexivity|].
  destruct (N.eqb_spec c 46); [lia|].
  destruct (isspace c); [reflexivity|].
  destruct (todecimal c) as [d|]; [|reflexivity].
  destruct (N.eqb_spec (48 + d) 46); [lia|reflexivity].
Qed.

Lemma count_to_ascii_dot (s : str) :
  count c_dot (to_ascii s) = count c_dot s.
Proof.
  induction s as [|c s IH]; [reflexivity|].
  cbn [to_ascii List.map count]. fold (to_ascii s).
  now rewrite to_ascii_char_dot, IH.
Qed.

Lemma count_underscores_from (s : str) :
  forall prev t, underscores_from prev s = Some t ->
  count c_dot t = count c_dot s.
Proof.
  induction s as [|c s IH]; intros prev t H; cbn [underscores_from] in H.
  - destruct (prev =? c_underscore); [discriminate|]. now injection H as <-.
  - destruct (c =? c_underscore) eqn:Eu.
    + destruct (ascii_digit prev); [|discriminate].
      apply N.eqb_eq in Eu. subst c. cbn [count].
      change (c_underscore =? c_dot) with false. eapply IH; eauto.
    + destruct ((prev =? c_underscore) && negb (ascii_digit c));
        [discriminate|].
      destruct (underscores_from c s) as [t'|] eqn:E; [|discriminate].
      injection H as <-. cbn [count]. now rewrite (IH c t' E).
Qed.

Lemma count_remove_underscores (s t : str) :
  remove_underscores s = Some t -> count c_dot t = count c_dot s.
Proof.
  unfold remove_underscores. destruct (contains c_underscore s).
  - apply count_underscores_from.
  - now intros [= <-].
Qed.

Lemma count_ascii_lstrip (s : str) :
  count c_dot (ascii_lstrip s) = count c_dot s.
Proof.
  induction s as [|c s IH]; [reflexivity|].
  cbn [ascii_lstrip]. destruct (ascii_space c) eqn:E; [|reflexivity].
  cbn [count]. rewrite IH.
  destruct (N.eqb_spec c c_dot) as [->|]; [discriminate E|reflexivity].
Qed.

Lemma count_rev (x : char) (s : str) : count x (rev s) = count x s.
Proof.
  induction s as [|c s IH]; [reflexivity|].
  cbn [rev count]. rewrite count_app, IH. cbn [count].
  destruct (c =? x); lia.
Qed.

Lemma count_ascii_strip (s : str) :
  count c_dot (ascii_strip s) = count c_dot s.
Proof.
  unfold ascii_strip.
  now rewrite count_rev, count_ascii_lstrip, count_rev, count_ascii_lstrip.
Qed.

Lemma span_digits_spec (s : str) :
  forall ds r, span_digits s = (ds, r) ->
  exists pre, s = pre ++ r /\ forallb ascii_digit pre = true.
Proof.
  induction s as [|c s IH]; intros ds r H; cbn [span_digits] in H.
  - injection H as <- <-. now exists [].
  - destruct (ascii_digit c) eqn:E.
    + destruct (span_digits s) as [ds' r'] eqn:Es.
      injection H as <- <-.
      destruct (IH ds' r' eq_refl) as (pre & -> & Hp).
      exists (c :: pre). cbn [forallb app]. now rewrite E, Hp.
    + injection H as <- <-. now exists [].
Qed.

Lemma span_digits_count (s : str) (ds : list N) (r : str) :
  span_digits s = (ds, r) -> count c_dot s = count c_dot r.
Proof.
  intros H. destruct (span_digits_spec s H) as (pre & -> & Hp).
  now rewrite count_app, (digits_count_dot pre Hp).
Qed.

Lemma parse_exponent_count (s : str) (e : Z) :
  parse_exponent s = Some e -> count c_dot s = 0%nat.
Proof.
  unfold parse_exponent. destruct s as [|c s']; [reflexivity|].
  destruct ((c =? 101) || (c =? 69)) eqn:Ec; [|discriminate].
  assert (Hc : (c =? c_dot) = false).
  { apply orb_true_iff in Ec.
    destruct Ec as [Ec|Ec]; apply N.eqb_eq in Ec; now subst c. }
  cbn [count]. rewrite Hc.
  destruct s' as [|x r']; [discriminate|].
  destruct (x =? c_minus) eqn:Em; [|destruct (x =? c_plus) eqn:Ep];
    cbv beta iota zeta; intros H.
  - destruct (span_digits r') as [[|d ds] [|y r2]] eqn:Es; try discriminate.
    cbn [count]. rewrite (span_digits_count r' Es).
    apply N.eqb_eq in Em. subst x. now change (c_minus =? c_dot) with false.
  - destruct (span_digits r') as [[|d ds] [|y r2]] eqn:Es; try discriminate.
    cbn [count]. rewrite (span_digits_count r' Es).
    apply N.eqb_eq in Ep. subst x. now change (c_plus =? c_dot) with false.
  - destruct (span_digits (x :: r')) as [[|d ds] [|y r2]] eqn:Es;
      try discriminate.
    now rewrite (span_digits_count (x :: r') Es).
Qed.

Lemma parse_decimal_count (neg : bool) (s : str) (v : float) :
  parse_decimal neg s = Some v -> (count c_dot s <= 1)%nat.
Proof.
  unfold parse_decimal.
  destruct (span_digits s) as [ip r1] eqn:E1.
  rewrite (span_digits_count s E1).
  destruct r1 as [|c r].
  - intros _. cbn. lia.
  - destruct (c =? c_dot) eqn:Ec.
    + destruct (span_digits r) as [fp r2] eqn:E2.
      destruct (ip ++ fp); [discriminate|].
      destruct (parse_exponent r2) as [e|] eqn:Ee; [|discriminate].
      intros _. cbn [count]. rewrite Ec, (span_digits_count r E2).
      rewrite (parse_exponent_count _ Ee). lia.
    + destruct (ip ++ []); [discriminate|].
      destruct (parse_exponent (c :: r)) as [e|] eqn:Ee; [|discriminate].
      intros _. rewrite (parse_exponent_count _ Ee). lia.
Qed.

Lemma lower_dot (c : char) : (lower c =? c_dot) = (c =? c_dot).
Proof.
  unfold lower, c_dot.
  destruct (N.leb_spec 65 c); [|reflexivity].
  destruct (N.leb_spec c 90); [|reflexivity]. cbn [andb].
  destruct (N.eqb_spec (c + 32) 46); [lia|].
  destruct (N.eqb_spec c 46); [lia|reflexivity].
Qed.

Lemma count_lower_dot (s : str) :
  count c_dot (List.map lower s) = count c_dot s.
Proof.
  induction s as [|c s IH]; [reflexivity|].
  cbn [List.map count]. now rewrite lower_dot, IH.
Qed.

Lemma parse_inf_or_nan_count (neg : bool) (s : str) (v : float) :
  parse_inf_or_nan neg s = Some v -> count c_dot s = 0%nat.
Proof.
  unfold parse_inf_or_nan. rewrite <- count_lower_dot.
  destruct (str_eqb (List.map lower s) (lit "inf"%string)) eqn:E1.
  - apply str_eqb_eq in E1. now rewrite E1.
  - destruct (str_eqb (List.map lower s) (lit "infinity"%string)) eqn:E2.
    + apply str_eqb_eq in E2. now rewrite E2.
    + cbn [orb].
      destruct (str_eqb (List.map lower s) (lit "nan"%string)) eqn:E3;
        [|discriminate].
      apply str_eqb_eq in E3. now rewrite E3.
Qed.

Lemma float_from_ascii_count (s : str) (v : float) :
  float_from_ascii s = Some v -> (count c_dot s <= 1)%nat.
Proof.
  unfold float_from_ascii.
  assert (Hgo : forall neg r,
            match parse_decimal neg r with
            | Some v => Some v
            | None => parse_inf_or_nan neg r
            end = Some v -> (count c_dot r <= 1)%nat).
  { intros neg r. destruct (parse_decimal neg r) as [v'|] eqn:E.
    - intros _. now apply parse_decimal_count in E.
    - intros H. apply parse_inf_or_nan_count in H. lia. }
  destruct s as [|c r]; [apply Hgo|].
  destruct (c =? c_minus) eqn:Em.
  - intros H. apply Hgo in H. cbn [count].
    apply N.eqb_eq in Em. subst c. now change (c_minus =? c_dot) with false.
  - destruct (c =? c_plus) eqn:Ep.
    + intros H. apply Hgo in H. cbn [count].
      apply N.eqb_eq in Ep. subst c. now change (c_plus =? c_dot) with false.
    + apply Hgo.
Qed.

(** [float] accepts no string with two points. *)
Lemma py_float_count (s : str) (v : float) :
  py_float s = Some v -> (count c_dot s <= 1)%nat.
Proof.
  unfold py_float.
  destruct (remove_underscores (to_ascii s)) as [t|] eqn:E; [|discriminate].
  intros H. apply float_from_ascii_count in H.
  now rewrite count_ascii_strip, (count_remove_underscores _ E),
    count_to_ascii_dot in H.
Qed.

End DotsMore.

Import DotsMore.

(** X4. Whatever the text, the string handed to [float] holds, once
    brought to ASCII, only digits, dots and whitespace: never a comma, a
    sign or a letter, so neither an exponent nor "inf" or "nan" is ever
    read. *)
Theorem converted_string_alphabet (text : str) :
  Forall (fun a => price_ascii a = true /\ (a =? c_comma) = false)
    (to_ascii (disambiguate (clean text))).
Proof.
  unfold to_ascii. apply Forall_map.
  pose proof (disambiguate_no_comma (clean text)) as Hno.
  pose proof (ParseFacts.disambiguate_kept (ParseFacts.clean_kept text)) as Hk.
  apply Forall_forall. intros c Hc. split.
  - apply to_ascii_char_price. rewrite Forall_forall in Hk. now apply Hk.
  - rewrite to_ascii_char_comma.
    destruct (N.eqb_spec c c_comma) as [->|]; [|reflexivity].
    unfold contains in Hno.
    assert (Hex : existsb (N.eqb c_comma) (disambiguate (clean text)) = true).
    { apply existsb_exists. exists c_comma. split; [exact Hc|reflexivity]. }
    congruence.
Qed.

(** X5. When both separators occur in the cleaned text and the one that
    occurs last occurs more than once (as in "1.234,56,78"), the string
    converted has several points and the result is None. *)
Theorem repeated_decimal_separator_fails (text : str) (d : char) :
  contains c_comma (clean text) = true ->
  contains c_dot (clean text) = true ->
  last_separator (clean text) = Some d ->
  (1 < count d (clean text))%nat ->
  parse_price (Some text) = None.
Proof.
  intros Hc Hd Hl Hn. unfold parse_price.
  destruct (py_float (disambiguate (clean text))) as [v|] eqn:E;
    [|reflexivity].
  exfalso. apply py_float_count in E.
  rewrite (StrFacts.disambiguate_both _ Hc Hd) in E.
  unfold last_separator_rule in E. rewrite Hl in E.
  destruct (StrFacts.last_separator_present _ Hc) as (d' & Hl' & Hsep).
  rewrite Hl in Hl'. injection Hl' as <-.
  unfold is_separator in Hsep. apply orb_true_iff in Hsep.
  destruct Hsep as [Ed|Ed]; apply N.eqb_eq in Ed; subst d.
  - change (other_separator c_comma) with c_dot in E.
    rewrite ParseMore.count_replace_one in E by reflexivity.
    rewrite ParseMore.count_replace_nil_same in E.
    rewrite ParseMore.count_replace_nil_other in E by reflexivity. lia.
  - change (other_separator c_dot) with c_comma in E.
    rewrite StrFacts.replace_same in E.
    rewrite ParseMore.count_replace_nil_other in E by reflexivity. lia.
Qed.

Lemma repeated_decimal_separator_fails_witness :
  parse_price (Some (lit "1.234,56,78"%string)) = None.
Proof.
  apply (@repeated_decimal_separator_fails
           (lit "1.234,56,78"%string) c_comma);
    vm_compute; (reflexivity || lia).
Defined.

Module SwapMore.

Import StrFacts FloatFacts ParseFacts ParseMore.

Local Open Scope N_scope.

(** ** Exchanging commas and dots *)

Lemma swap_eqb (x c : char) :
  (swap_separator x =? c) = (x =? swap_separator c).
Proof.
  unfold swap_separator, c_comma, c_dot.
  destruct (N.eqb_spec x 44), (N.eqb_spec c 44);
    destruct (N.eqb_spec x 46), (N.eqb_spec c 46); subst;
    try lia; try reflexivity;
    repeat match goal with
           | |- context [N.eqb ?a ?b] => destruct (N.eqb_spec a b)
           end; try lia; reflexivity.
Qed.

Lemma swap_involutive (s : str) : swap_separators (swap_separators s) = s.
Proof.
  unfold swap_separators. rewrite map_map. rewrite <- (map_id s) at 2.
  apply map_ext. intros c. unfold swap_separator, c_comma, c_dot.
  destruct (N.eqb_spec c 44); [now subst|].
  destruct (N.eqb_spec c 46); [now subst|].
  destruct (N.eqb_spec c 44); [lia|]. destruct (N.eqb_spec c 46); [lia|].
  reflexivity.
Qed.

Lemma swap_other (c : char) :
  (c =? c_comma) = false -> (c =? c_dot) = false -> swap_separator c = c.
Proof. unfold swap_separator. now intros -> ->. Qed.

Lemma swap_space (c : char) : isspace (swap_separator c) = isspace c.
Proof.
  unfold swap_separator.
  destruct (N.eqb_spec c c_comma) as [->|]; [reflexivity|].
  destruct (N.eqb_spec c c_dot) as [->|]; reflexivity.
Qed.

Lemma swap_kept (c : char) : kept (swap_separator c) = kept c.
Proof.
  unfold swap_separator.
  destruct (N.eqb_spec c c_comma) as [->|]; [reflexivity|].
  destruct (N.eqb_spec c c_dot) as [->|]; reflexivity.
Qed.

Lemma contains_swap (c : char) (s : str) :
  contains c (swap_separators s) = contains (swap_separator c) s.
Proof.
  induction s as [|x s IH]; [reflexivity|].
  cbn [swap_separators List.map contains existsb].
  fold (swap_separators s). fold (contains c (swap_separators s)).
  fold (contains (swap_separator c) s).
  rewrite IH. f_equal.
  rewrite (N.eqb_sym c), swap_eqb. apply N.eqb_sym.
Qed.

Lemma count_swap (c : char) (s : str) :
  count c (swap_separators s) = count (swap_separator c) s.
Proof.
  induction s as [|x s IH]; [reflexivity|].
  cbn [swap_separators List.map count]. fold (swap_separators s).
  now rewrite swap_eqb, IH.
Qed.

Lemma rfind_swap (c : char) (s : str) :
  rfind c (swap_separators s) = rfind (swap_separator c) s.
Proof.
  unfold rfind. generalize 0%Z (-1)%Z.
  induction s as [|x s IH]; intros i f; [reflexivity|].
  cbn [swap_separators List.map rfind_from]. fold (swap_separators s).
  now rewrite swap_eqb, IH.
Qed.

Lemma lstrip_swap (s : str) :
  lstrip (swap_separators s) = swap_separators (lstrip s).
Proof.
  induction s as [|c s IH]; [reflexivity|].
  cbn [swap_separators List.map lstrip]. fold (swap_separators s).
  rewrite swap_space. destruct (isspace c); [exact IH|reflexivity].
Qed.

Lemma rstrip_swap (s : str) :
  rstrip (swap_separators s) = swap_separators (rstrip s).
Proof.
  induction s as [|c s IH]; [reflexivity|].
  cbn [swap_separators List.map]. fold (swap_separators s).
  rewrite !rstrip_cons, IH, swap_space.
  destruct (rstrip s) as [|x t]; [|reflexivity].
  cbn [swap_separators List.map]. now destruct (isspace c).
Qed.

Lemma filter_swap (f : char -> bool) (s : str) :
  (forall c, f (swap_separator c) = f c) ->
  filter f (swap_separators s) = swap_separators (filter f s).
Proof.
  intros Hf. induction s as [|c s IH]; [reflexivity|].
  cbn [swap_separators List.map filter]. fold (swap_separators s).
  rewrite Hf, IH. now destruct (f c).
Qed.

Lemma clean_swap (text : str) :
  clean (swap_separators text) = swap_separators (clean text).
Proof.
  rewrite !clean_eq. rewrite (filter_swap kept) by apply swap_kept.
  unfold strip. rewrite rstrip_swap, lstrip_swap.
  apply filter_swap. intros c. unfold swap_separator.
  destruct (N.eqb_spec c c_comma) as [->|]; [reflexivity|].
  destruct (N.eqb_spec c c_dot) as [->|]; reflexivity.
Qed.

(** Deleting the commas after the exchange is deleting the dots and
    turning the commas into dots. *)
Lemma delete_commas_swap (s : str) :
  replace c_comma [] (swap_separators s) =
  replace c_comma [c_dot] (replace c_dot [] s).
Proof.
  induction s as [|x s IH]; [reflexivity|].
  cbn [swap_separators List.map]. fold (swap_separators s).
  unfold swap_separator at 1.
  destruct (N.eqb_spec x c_comma) as [->|Hx].
  - cbn [replace app]. change (c_dot =? c_comma) with false.
    change (c_comma =? c_dot) with false. cbn [replace app].
    change (c_comma =? c_comma) with true. cbn [app]. now rewrite IH.
  - destruct (N.eqb_spec x c_dot) as [->|Hd].
    + cbn [replace app]. change (c_comma =? c_comma) with true.
      change (c_dot =? c_dot) with true. cbn [app]. exact IH.
    + cbn [replace app].
      destruct (N.eqb_spec x c_comma); [contradiction|].
      destruct (N.eqb_spec x c_dot); [contradiction|].
      cbn [replace app].
      destruct (N.eqb_spec x c_comma); [contradiction|]. now rewrite IH.
Qed.

(** With no dot in [s]: the last dot of the exchanged string is the last
    comma of [s]. *)
Lemma delete_dots_swap (s : str) :
  contains c_dot s = false ->
  delete_all_but_last c_dot (swap_separators s) =
  replace c_comma [c_dot] (delete_all_but_last c_comma s).
Proof.
  induction s as [|x s IH]; [reflexivity|].
  cbn [contains existsb]. fold (contains c_dot s).
  intros H. apply orb_false_iff in H. destruct H as [Hx Hs].
  cbn [swap_separators List.map delete_all_but_last].
  fold (swap_separators s).
  rewrite swap_eqb, contains_swap.
  change (swap_separator c_dot) with c_comma.
  destruct ((x =? c_comma) && contains c_comma s) eqn:E; [now apply IH|].
  cbn [replace]. rewrite (IH Hs).
  unfold swap_separator.
  destruct (x =? c_comma); [reflexivity|].
  rewrite N.eqb_sym in Hx. now rewrite Hx.
Qed.

Lemma rfind_absent (c : char) (s : str) :
  contains c s = false -> rfind c s = (-1)%Z.
Proof.
  unfold rfind. generalize 0%Z (-1)%Z.
  induction s as [|y s IH]; intros i f H; [reflexivity|].
  cbn [contains existsb] in H. apply orb_false_iff in H.
  destruct H as [H1 H2].
  cbn [rfind_from]. rewrite N.eqb_sym, H1. now apply IH.
Qed.

Lemma rfind_present (c : char) (s : str) :
  contains c s = true -> (0 <= rfind c s)%Z.
Proof.
  induction s as [|x s IH] using rev_ind; [discriminate|].
  rewrite contains_snoc, rfind_snoc. intros H.
  destruct (x =? c) eqn:E; [lia|].
  rewrite N.eqb_sym, E, orb_false_r in H. now apply IH.
Qed.

(** The last comma and the last dot are at different places. *)
Lemma rfind_dot_comma (s : str) :
  contains c_comma s = true ->
  (rfind c_dot s >? rfind c_comma s)%Z =
  negb (rfind c_comma s >? rfind c_dot s)%Z.
Proof.
  induction s as [|x s IH] using rev_ind; [discriminate|].
  rewrite contains_snoc, !rfind_snoc. intros H.
  destruct (N.eqb_spec x c_comma) as [->|Hx].
  - change (c_comma =? c_dot) with false. cbv iota.
    pose proof (rfind_lt c_dot s).
    assert (E1 : (rfind c_dot s >? Z.of_nat (length s))%Z = false)
      by (rewrite Z.gtb_ltb; apply Z.ltb_ge; lia).
    assert (E2 : (Z.of_nat (length s) >? rfind c_dot s)%Z = true)
      by (apply Z.gtb_lt; lia).
    now rewrite E1, E2.
  - destruct (N.eqb_spec x c_dot) as [->|Hd].
    + pose proof (rfind_lt c_comma s).
      assert (E1 : (rfind c_comma s >? Z.of_nat (length s))%Z = false)
        by (rewrite Z.gtb_ltb; apply Z.ltb_ge; lia).
      assert (E2 : (Z.of_nat (length s) >? rfind c_comma s)%Z = true)
        by (apply Z.gtb_lt; lia).
      now rewrite E1, E2.
    + apply IH. destruct (N.eqb_spec c_comma x); [congruence|].
      now rewrite orb_false_r in H.
Qed.

Lemma swap_absent (s : str) :
  contains c_comma s = false -> contains c_dot s = false ->
  swap_separators s = s.
Proof.
  induction s as [|x s IH]; [reflexivity|].
  cbn [contains existsb]. fold (contains c_comma s) (contains c_dot s).
  intros H1 H2. apply orb_false_iff in H1, H2.
  destruct H1 as [H1 H1'], H2 as [H2 H2'].
  cbn [swap_separators List.map]. fold (swap_separators s).
  rewrite (IH H1' H2'). f_equal. apply swap_other; now rewrite N.eqb_sym.
Qed.

(** Lines 54-77 do not tell a comma from a dot. *)
Lemma disambiguate_swap (s : str) :
  disambiguate (swap_separators s) = disambiguate s.
Proof.
  destruct (contains c_comma s) eqn:Hc; destruct (contains c_dot s) eqn:Hd.
  - unfold disambiguate. rewrite !contains_swap, !rfind_swap.
    change (swap_separator c_comma) with c_dot.
    change (swap_separator c_dot) with c_comma.
    rewrite Hc, Hd. cbn [andb]. rewrite (rfind_dot_comma s Hc).
    destruct (rfind c_comma s >? rfind c_dot s)%Z; cbn [negb].
    + apply delete_commas_swap.
    + rewrite <- (swap_involutive s) at 2.
      now rewrite delete_commas_swap.
  - rewrite (disambiguate_commas s Hc Hd).
    rewrite disambiguate_only_dots
      by (rewrite contains_swap; exact Hd).
    now apply delete_dots_swap.
  - rewrite (disambiguate_only_dots s Hc).
    rewrite disambiguate_commas
      by (rewrite contains_swap; assumption).
    rewrite <- (swap_involutive s) at 2.
    symmetry. apply delete_dots_swap. now rewrite contains_swap.
  - now rewrite swap_absent.
Qed.

End SwapMore.

(** X6. parse_price does not tell commas from dots: exchanging every
    comma with a dot and every dot with a comma in the text leaves the
    result unchanged, so "1,234.56" and "1.234,56" always agree. *)
Theorem parse_price_separator_symmetry (text : str) :
  parse_price (Some (swap_separators text)) = parse_price (Some text).
Proof.
  unfold parse_price.
  now rewrite SwapMore.clean_swap, SwapMore.disambiguate_swap.
Qed.

(* ================================================================== *)
(** * Further properties of the watcher *)
(* ================================================================== *)

Lemma parse_price_sign (text : option str) (v : float) :
  parse_price text = Some v -> nonneg v = true.
Proof.
  destruct text as [t|]; [|discriminate]. unfold parse_price. intros H.
  apply (@FloatFacts.py_float_nonneg (disambiguate (clean t)));
    [|exact H].
  apply ParseFacts.disambiguate_kept, ParseFacts.clean_kept.
Qed.


Lemma records_for_urls (ps : list Product) (new : list Observation) :
  Forall2 records_for ps new -> List.map o_url new = List.map p_url ps.
Proof.
  induction 1 as [|p o ps new Hpo _ IH]; [reflexivity|].
  destruct Hpo as (_ & Hu & _). cbn [List.map]. now rewrite Hu, IH.
Qed.

Lemma alert_line_iff (new : list Observation) :
  (exists p t, In (AlertLine p t) (flat_map report_lines new)) <->
  existsb alerting new = true.
Proof.
  induction new as [|o new IH]; cbn [flat_map existsb].
  - split; [intros (p & t & []) | discriminate].
  - split.
    + intros (p & t & Hin). apply in_app_or in Hin.
      destruct Hin as [Hin|Hin].
      * unfold report_lines in Hin.
        destruct (negb (str_eqb (o_status o) status_ok)).
        -- destruct Hin as [Hin|[]]. discriminate Hin.
        -- destruct (alerting o); [reflexivity|].
           destruct Hin as [Hin|[]]. discriminate Hin.
      * apply orb_true_iff. right. apply IH. eauto.
    + intros H. apply orb_true_iff in H. destruct H as [H|H].
      * exists (o_price o), (o_target o). apply in_or_app. left.
        unfold report_lines. rewrite H.
        assert (Hs : str_eqb (o_status o) status_ok = true).
        { unfold alerting in H. now apply andb_true_iff in H. }
        rewrite Hs. cbn. auto.
      * apply IH in H. destruct H as (p & t & Hin).
        exists p, t. apply in_or_app. now right.
Qed.

Section WatcherMore.

Variable http_get : nat -> str -> str + str.
Variable Tag : Type.
Variable select_one : str -> str -> Exn + option Tag.
Variable get_text : Tag -> str.
Variable utcnow : nat -> str.

Local Abbreviation fetch_price := (fetch_price http_get select_one get_text).
Local Abbreviation fetch_result := (fetch_result http_get select_one get_text).
Local Abbreviation observation_of := (observation_of utcnow).
Local Abbreviation check_products :=
  (check_products http_get select_one get_text utcnow).
Local Abbreviation run_once := (run_once http_get select_one get_text utcnow).
Local Abbreviation selector_ok := (selector_ok select_one).

(** Every row of a run is the row of some check whose [fetch_price]
    returned. *)
Lemma check_products_rows (P : Observation -> Prop) :
  (forall k c p res,
     fetch_result k (p_url p) (p_selector p) = inr res ->
     P (observation_of c p res)) ->
  forall (ps : list Product) (b : bool) (w : World) (r : list Observation),
  price_history w = Some r ->
  exists new,
    price_history (snd (check_products ps b w)) = Some (r ++ new) /\
    Forall P new.
Proof.
  intros HP. induction ps as [|p rest IH]; intros b w r Hr.
  - exists []. cbn. now rewrite app_nil_r.
  - rewrite (check_products_cons http_get select_one get_text utcnow
               p rest b w Hr).
    destruct (fetch_result (length (requests w)) (p_url p) (p_selector p))
      as [e|res] eqn:Ef.
    + exists []. cbn. now rewrite app_nil_r.
    + cbv zeta. set (o := observation_of (clock w) p res).
      destruct (bindable (p_target_price p)).
      * destruct (IH (b || alerting o) (after_check p o r w) (r ++ [o])
                    eq_refl) as (new & H1 & H2).
        exists (o :: new). rewrite H1, <- app_assoc. split; [reflexivity|].
        constructor; [exact (HP _ _ _ _ Ef) | exact H2].
      * exists []. cbn. now rewrite app_nil_r.
Qed.

Lemma run_once_rows (P : Observation -> Prop) (w : World) :
  (forall k c p res,
     fetch_result k (p_url p) (p_selector p) = inr res ->
     P (observation_of c p res)) ->
  exists new, rows (snd (run_once w)) = rows w ++ new /\ Forall P new.
Proof.
  intros HP. pose proof (run_once_eq http_get select_one get_text utcnow w)
    as E. cbv zeta in E.
  assert (Hnone : forall l ev c,
            rows (snd (Exited (A:=unit) c,
                       log ev
                         (set_stderr l
                            (set_price_history (Some (rows w)) w))))
            = rows w ++ []).
  { intros. cbn. now rewrite app_nil_r. }
  destruct (config_file w) as [cfg|].
  - destruct (cfg_products cfg) as [[|p ps]|].
    + exists []. rewrite E. split; [apply Hnone | constructor].
    + destruct (@check_products_rows P HP (p :: ps) false
                  (set_price_history (Some (rows w)) w) (rows w) eq_refl)
        as (new & H1 & H2).
      exists new. split; [|exact H2].
      destruct (check_products (p :: ps) false _) as [[[|]|c|e] w'];
        rewrite E; cbn [fst snd] in *; unfold rows;
        cbn [set_stdout log price_history]; now rewrite H1.
    + exists []. rewrite E. split; [apply Hnone | constructor].
  - exists []. rewrite E. split; [apply Hnone | constructor].
Qed.

(** The loop up to a product whose integer target cannot be stored. *)
Lemma check_products_unbindable (p : Product) (rest : list Product)
    (pre : list Product) :
  Forall (fun q => selector_ok (p_selector q) /\
                   bindable (p_target_price q) = true) pre ->
  selector_ok (p_selector p) -> bindable (p_target_price p) = false ->
  forall (b : bool) (w : World) (r : list Observation),
  price_history w = Some r ->
  exists new : list Observation,
    let res := check_products (pre ++ p :: rest) b w in
    Forall2 records_for pre new /\
    fst res = Raised OverflowError /\
    price_history (snd res) = Some (r ++ new) /\
    requests (snd res) = requests w ++ List.map p_url pre ++ [p_url p] /\
    stdout (snd res) = stdout w ++ flat_map report_lines new /\
    stderr (snd res) = stderr w.
Proof.
  intros Hpre Hs Hb. induction Hpre as [|q pre [Hqs Hqb] _ IH];
    intros b w r Hr; cbn [app].
  - exists []. cbv zeta.
    rewrite (check_products_cons http_get select_one get_text utcnow
               p rest b w Hr).
    destruct (fetch_result_selector_ok http_get get_text
                (length (requests w)) (p_url p) Hs) as (res & ->).
    cbv zeta. rewrite Hb. cbn. rewrite !app_nil_r.
    repeat split; auto; constructor.
  - cbv zeta.
    rewrite (check_products_cons http_get select_one get_text utcnow
               q _ b w Hr).
    destruct (fetch_result_selector_ok http_get get_text
                (length (requests w)) (p_url q) Hqs) as (res & ->).
    cbv zeta. rewrite Hqb.
    set (o := observation_of (clock w) q res).
    destruct (IH (b || alerting o) (after_check q o r w) (r ++ [o]) eq_refl)
      as (new & H1 & H2 & H3 & H4 & H5 & H6).
    cbv zeta in *. exists (o :: new).
    rewrite H3, H4, H5, H6. unfold after_check.
    cbn [requests stdout stderr List.map flat_map].
    rewrite <- !app_assoc. cbn [app].
    repeat split; auto.
    constructor; [apply observation_of_records_for | exact H1].
Qed.

(** X8. A run over a non-empty list sends exactly one GET per product it
    checks, to the products' URLs in the configured order and with no
    retry. A run that completes has requested every product and
    recorded as many rows as it sent requests; a run that raises has
    recorded one row less than it sent requests. *)
Theorem one_request_per_product
    (w : World) (cfg : Config) (ps : list Product) :
  config_file w = Some cfg -> cfg_products cfg = Some ps -> ps <> [] ->
  exists n : nat,
    (n <= length ps)%nat /\
    requests (snd (run_once w)) =
    requests w ++ List.map p_url (firstn n ps) /\
    (forall u, fst (run_once w) = Returned u ->
       n = length ps /\
       length (rows (snd (run_once w))) = (length (rows w) + n)%nat) /\
    (forall e, fst (run_once w) = Raised e ->
       S (length (rows (snd (run_once w)))) = (length (rows w) + n)%nat).
Proof.
  intros Hc Hp Hne.
  destruct (run_once_products http_get select_one get_text utcnow
              w Hc Hp Hne) as (new & tail & H1 & H2 & _ & H4 & _ & _ & H7).
  cbv zeta in *.
  assert (Hn : (length new <= length ps)%nat).
  { apply Forall2_length in H4. rewrite length_firstn in H4. lia. }
  assert (Hrows : length (rows (snd (run_once w))) =
                  (length (rows w) + length new)%nat).
  { unfold rows at 1. rewrite H1. now rewrite length_app. }
  assert (Hurls : List.map o_url new =
                  List.map p_url (firstn (length new) ps))
    by now apply records_for_urls.
  destruct (fst (run_once w)) as [u|c|e].
  - destruct H7 as (Hl & Ht & _). exists (length new).
    split; [exact Hn|]. split; [|split].
    + rewrite H2, Ht, app_nil_r. now rewrite Hurls.
    + intros _ _. split; [exact Hl | exact Hrows].
    + discriminate.
  - contradiction.
  - destruct H7 as ((p & Hnth & Ht & _) & _). exists (S (length new)).
    assert (Hlt : (length new < length ps)%nat).
    { apply nth_error_Some. congruence. }
    split; [lia|]. split; [|split].
    + rewrite H2, Ht, (firstn_S_nth _ _ Hnth), map_app, Hurls.
      reflexivity.
    + discriminate.
    + intros _ _. rewrite Hrows. lia.
Qed.



(** X12. In the output of a completed run over a non-empty list, the
    line "No alerts this run." is present exactly when no ALERT line
    is. *)
Theorem summary_iff_no_alert_line
    (w : World) (cfg : Config) (ps : list Product) (u : unit) :
  config_file w = Some cfg -> cfg_products cfg = Some ps -> ps <> [] ->
  fst (run_once w) = Returned u ->
  exists out : list Line,
    stdout (snd (run_once w)) = stdout w ++ out /\
    (In NoAlerts out <-> ~ (exists p t, In (AlertLine p t) out)).
Proof.
  intros Hc Hp Hne Hret.
  destruct (run_once_products http_get select_one get_text utcnow
              w Hc Hp Hne) as (new & tail & _ & _ & _ & _ & _ & _ & H7).
  cbv zeta in *. rewrite Hret in H7. destruct H7 as (_ & _ & Hout & _).
  eexists. split; [exact Hout|].
  pose proof (report_lines_not_summary new) as Hns.
  rewrite Forall_forall in Hns.
  destruct (existsb alerting new) eqn:E.
  - rewrite app_nil_r. split.
    + intros Hin. apply Hns in Hin. discriminate Hin.
    + intros Hno. exfalso. apply Hno. now apply alert_line_iff.
  - split.
    + intros _ (p & t & Hin). apply in_app_or in Hin.
      destruct Hin as [Hin|[Hin|[]]]; [|discriminate Hin].
      assert (Hex : existsb alerting new = true)
        by (apply alert_line_iff; eauto).
      congruence.
    + intros _. apply in_or_app. right. now left.
Qed.

(** X13. No row that a run adds to the table holds a negative price or a
    NaN: the price is absent, or its sign bit is clear and it is a
    number. *)
Theorem recorded_prices_nonnegative (w : World) :
  exists new : list Observation,
    rows (snd (run_once w)) = rows w ++ new /\
    Forall (fun o => forall v, o_price o = Some v -> nonneg v = true) new.
Proof.
  apply run_once_rows. intros k c p res Hres v.
  unfold Watch.observation_of. cbn [o_price].
  unfold Watch.fetch_result in Hres.
  destruct (http_get k (p_url p)) as [e|text];
    [injection Hres as <-; discriminate|].
  destruct (select_one text (p_selector p)) as [exn|[el|]];
    [discriminate | | injection Hres as <-; discriminate].
  destruct (parse_price (Some (get_text el))) as [v'|] eqn:E;
    injection Hres as <-; [|discriminate].
  cbn [fst]. intros [= <-]. now apply parse_price_sign in E.
Qed.

End WatcherMore.

Module GroupsMore.

Import StrFacts FloatFacts ParseFacts ParseMore SwapMore.

Local Open Scope N_scope.

(** ** Grouped numbers *)

Lemma digit_not_separator (c : char) :
  ascii_digit c = true -> (c =? c_comma) = false /\ (c =? c_dot) = false.
Proof.
  unfold ascii_digit, c_comma, c_dot. intros H.
  apply andb_true_iff in H. destruct H as [H1 H2].
  apply N.leb_le in H1. apply N.leb_le in H2.
  split; [destruct (N.eqb_spec c 44) | destruct (N.eqb_spec c 46)];
    (lia || reflexivity).
Qed.

Lemma digits_absent (x : char) (s : str) :
  is_separator x = true -> forallb ascii_digit s = true ->
  contains x s = false.
Proof.
  intros Hx. induction s as [|c s IH]; [reflexivity|]. cbn [forallb].
  intros H. apply andb_true_iff in H. destruct H as [Hc Hs].
  cbn [contains existsb]. fold (contains x s). rewrite (IH Hs), orb_false_r.
  destruct (digit_not_separator c Hc) as [H1 H2].
  unfold is_separator in Hx. apply orb_true_iff in Hx.
  destruct Hx as [E|E]; apply N.eqb_eq in E; subst x;
    now rewrite N.eqb_sym.
Qed.

Lemma replace_app (c : char) (new s t : str) :
  replace c new (s ++ t) = replace c new s ++ replace c new t.
Proof.
  induction s as [|x s IH]; [reflexivity|].
  cbn [app replace]. destruct (x =? c); rewrite IH.
  - now rewrite app_assoc.
  - reflexivity.
Qed.

Lemma contains_app (c : char) (s t : str) :
  contains c (s ++ t) = contains c s || contains c t.
Proof. unfold contains. apply existsb_app. Qed.

Lemma ungroup (sep : char) (groups : list str) :
  is_separator sep = true ->
  forallb (forallb ascii_digit) groups = true ->
  replace sep [] (grouped sep groups) = concat groups.
Proof.
  intros Hsep. induction groups as [|g rest IH]; [reflexivity|].
  cbn [forallb]. intros H. apply andb_true_iff in H. destruct H as [Hg Hr].
  assert (Hgid : replace sep [] g = g).
  { apply replace_absent. now apply digits_absent. }
  destruct rest as [|g' rest'].
  - cbn [grouped concat]. now rewrite app_nil_r.
  - change (grouped sep (g :: g' :: rest'))
      with (g ++ sep :: grouped sep (g' :: rest')).
    rewrite replace_app, Hgid. cbn [replace]. rewrite N.eqb_refl.
    cbn [app concat]. f_equal. exact (IH Hr).
Qed.

Lemma grouped_digits_or_sep (sep : char) (groups : list str) :
  is_separator sep = true ->
  forallb (forallb ascii_digit) groups = true ->
  Forall (fun c => ascii_digit c = true \/ is_separator c = true)
    (grouped sep groups).
Proof.
  intros Hsep. induction groups as [|g rest IH]; [constructor|].
  cbn [forallb]. intros H. apply andb_true_iff in H. destruct H as [Hg Hr].
  assert (HG : Forall (fun c => ascii_digit c = true \/
                                is_separator c = true) g).
  { apply Forall_forall. intros c Hc. left.
    rewrite forallb_forall in Hg. now apply Hg. }
  destruct rest as [|g' rest']; [exact HG|].
  change (grouped sep (g :: g' :: rest'))
    with (g ++ sep :: grouped sep (g' :: rest')).
  apply Forall_app. split; [exact HG|]. constructor; [now right|].
  exact (IH Hr).
Qed.

Lemma contains_grouped (sep : char) (g1 g2 : str) (rest : list str) :
  contains sep (grouped sep (g1 :: g2 :: rest)) = true.
Proof.
  change (grouped sep (g1 :: g2 :: rest))
    with (g1 ++ sep :: grouped sep (g2 :: rest)).
  rewrite contains_app. cbn [contains existsb]. rewrite N.eqb_refl.
  apply orb_true_r.
Qed.

Lemma lstrip_id (s : str) :
  Forall (fun c => isspace c = false) s -> lstrip s = s.
Proof. destruct 1 as [|c s Hc _]; [reflexivity|]. cbn. now rewrite Hc. Qed.

Lemma rstrip_id (s : str) :
  Forall (fun c => isspace c = false) s -> rstrip s = s.
Proof.
  induction 1 as [|c s Hc _ IH]; [reflexivity|].
  rewrite rstrip_cons, IH, Hc. now destruct s.
Qed.

Lemma filter_id {A} (f : A -> bool) (l : list A) :
  Forall (fun a => f a = true) l -> filter f l = l.
Proof.
  induction 1 as [|a l Ha _ IH]; [reflexivity|].
  cbn [filter]. now rewrite Ha, IH.
Qed.

Lemma digit_or_sep_facts (c : char) :
  ascii_digit c = true \/ is_separator c = true ->
  kept c = true /\ isspace c = false /\ negb (c =? c_space) = true.
Proof.
  intros [H|H].
  - assert (Hn : numeral_char c = true)
      by (unfold numeral_char; now rewrite H).
    apply numeral_char_facts in Hn.
    destruct Hn as (H1 & H2 & _ & H4 & _). now rewrite H4.
  - unfold is_separator in H. apply orb_true_iff in H.
    destruct H as [E|E]; apply N.eqb_eq in E; subst c; now cbn.
Qed.

Lemma clean_id (s : str) :
  Forall (fun c => ascii_digit c = true \/ is_separator c = true) s ->
  clean s = s.
Proof.
  intros H. rewrite clean_eq.
  assert (H1 : Forall (fun c => kept c = true) s)
    by (eapply Forall_impl; [|exact H]; intros c Hc;
        now apply digit_or_sep_facts in Hc).
  assert (H2 : Forall (fun c => isspace c = false) s)
    by (eapply Forall_impl; [|exact H]; intros c Hc;
        now apply digit_or_sep_facts in Hc).
  assert (H3 : Forall (fun c => negb (c =? c_space) = true) s)
    by (eapply Forall_impl; [|exact H]; intros c Hc;
        now apply digit_or_sep_facts in Hc).
  rewrite (filter_id _ H1). unfold strip.
  rewrite (rstrip_id H2), (lstrip_id H2). now apply filter_id.
Qed.

Lemma last_separator_before_digits (a fp : str) (d : char) :
  is_separator d = true -> forallb ascii_digit fp = true ->
  last_separator (a ++ d :: fp) = Some d.
Proof.
  intros Hd Hf. unfold last_separator.
  rewrite rev_app_distr. cbn [rev]. rewrite <- app_assoc. cbn [app].
  assert (Hr : forallb ascii_digit (rev fp) = true).
  { rewrite forallb_forall in *. intros c Hc. apply Hf. now apply in_rev. }
  induction (rev fp) as [|c r IH]; [cbn; now rewrite Hd|].
  cbn [forallb] in Hr. apply andb_true_iff in Hr. destruct Hr as [Hc Hr].
  cbn [app find]. destruct (digit_not_separator c Hc) as [H1 H2].
  unfold is_separator at 1. rewrite H1, H2. cbn [orb]. exact (IH Hr).
Qed.

(** A number written with dot as decimal point and commas between the
    groups of its integer part. *)
Lemma disambiguate_grouped (g1 g2 : str) (rest : list str) (fp : str) :
  forallb (forallb ascii_digit) (g1 :: g2 :: rest) = true ->
  forallb ascii_digit fp = true -> fp <> [] ->
  disambiguate (clean (grouped c_comma (g1 :: g2 :: rest) ++ c_dot :: fp)) =
  plain_decimal (concat (g1 :: g2 :: rest)) fp.
Proof.
  intros Hg Hf Hne.
  set (a := grouped c_comma (g1 :: g2 :: rest)).
  assert (Ha : Forall (fun c => ascii_digit c = true \/
                                is_separator c = true) (a ++ c_dot :: fp)).
  { apply Forall_app. split; [now apply grouped_digits_or_sep|].
    constructor; [now right|]. apply Forall_forall. intros c Hc. left.
    rewrite forallb_forall in Hf. now apply Hf. }
  rewrite (clean_id Ha).
  assert (Hc : contains c_comma (a ++ c_dot :: fp) = true).
  { rewrite contains_app. subst a. now rewrite contains_grouped. }
  assert (Hd : contains c_dot (a ++ c_dot :: fp) = true).
  { rewrite contains_app. cbn [contains existsb].
    change (c_dot =? c_dot) with true. cbn [orb]. apply orb_true_r. }
  rewrite (disambiguate_both _ Hc Hd). unfold last_separator_rule.
  rewrite (@last_separator_before_digits a fp c_dot eq_refl Hf).
  change (other_separator c_dot) with c_comma.
  rewrite replace_same, replace_app. subst a.
  rewrite (@ungroup c_comma (g1 :: g2 :: rest) eq_refl Hg).
  cbn [replace]. change (c_dot =? c_comma) with false.
  rewrite (replace_absent c_comma [] fp)
    by (now apply digits_absent).
  unfold plain_decimal. destruct fp; [congruence|reflexivity].
Qed.

Lemma swap_digits (s : str) :
  forallb ascii_digit s = true -> swap_separators s = s.
Proof.
  intros H. apply swap_absent; now apply digits_absent.
Qed.

Lemma swap_grouped (groups : list str) :
  forallb (forallb ascii_digit) groups = true ->
  swap_separators (grouped c_comma groups) = grouped c_dot groups.
Proof.
  induction groups as [|g rest IH]; [reflexivity|].
  cbn [forallb]. intros H. apply andb_true_iff in H. destruct H as [Hg Hr].
  destruct rest as [|g' rest']; [now apply swap_digits|].
  change (grouped c_comma (g :: g' :: rest'))
    with (g ++ c_comma :: grouped c_comma (g' :: rest')).
  change (grouped c_dot (g :: g' :: rest'))
    with (g ++ c_dot :: grouped c_dot (g' :: rest')).
  unfold swap_separators in *. rewrite map_app. cbn [List.map].
  rewrite (IH Hr). fold (swap_separators g). now rewrite (swap_digits g Hg).
Qed.

End GroupsMore.

(** X15. A number whose integer part is written in groups of digits
    parses to the value it denotes, in both conventions: with commas
    between the groups and a dot before the decimals, or with dots
    between the groups and a comma before the decimals. *)
Theorem grouped_number_value
    (g1 g2 : str) (rest : list str) (fp : str) :
  g1 <> [] ->
  forallb (forallb ascii_digit) (g1 :: g2 :: rest) = true ->
  forallb ascii_digit fp = true -> fp <> [] ->
  let v := of_decimal false
             (digits_value (digit_values (concat (g1 :: g2 :: rest)) ++
                            digit_values fp))
             (- Z.of_nat (length fp)) in
  parse_price (Some (grouped c_comma (g1 :: g2 :: rest) ++ c_dot :: fp))
  = Some v /\
  parse_price (Some (grouped c_dot (g1 :: g2 :: rest) ++ c_comma :: fp))
  = Some v.
Proof.
  intros Hne Hg Hf Hfp v.
  assert (H1 : parse_price
                 (Some (grouped c_comma (g1 :: g2 :: rest) ++ c_dot :: fp))
               = Some v).
  { unfold parse_price.
    rewrite (GroupsMore.disambiguate_grouped g1 g2 rest Hg Hf Hfp).
    apply ParseFacts.py_float_plain_decimal; [|  |exact Hf].
    - destruct g1; [congruence|discriminate].
    - rewrite forallb_forall in *. intros c Hc.
      apply in_concat in Hc. destruct Hc as (g & Hin & Hc).
      specialize (Hg g Hin). rewrite forallb_forall in Hg. now apply Hg. }
  split; [exact H1|]. rewrite <- H1.
  assert (Hs : grouped c_dot (g1 :: g2 :: rest) ++ c_comma :: fp =
               swap_separators
                 (grouped c_comma (g1 :: g2 :: rest) ++ c_dot :: fp)).
  { unfold swap_separators. rewrite map_app. cbn [List.map].
    fold (swap_separators (grouped c_comma (g1 :: g2 :: rest))).
    fold (swap_separators fp).
    rewrite (GroupsMore.swap_grouped _ Hg), (GroupsMore.swap_digits fp Hf).
    reflexivity. }
  rewrite Hs. unfold parse_price.
  now rewrite SwapMore.clean_swap, SwapMore.disambiguate_swap.
Qed.

(* ================================================================== *)
(** * Further concrete runs *)
(* ================================================================== *)

Lemma grouped_number_value_witness :
  parse_price (Some (lit "1,234,567.89"%string)) =
  py_float (lit "1234567.89"%string) /\
  parse_price (Some (lit "1.234.567,89"%string)) =
  py_float (lit "1234567.89"%string).
Proof.
  apply (@grouped_number_value
           (lit "1"%string) (lit "234"%string) [lit "567"%string]
           (lit "89"%string)); (discriminate || reflexivity).
Defined.

Lemma one_request_per_product_witness :
  requests (snd (Scenario.run_once
                   (Scenario.world_with Scenario.all_products))) =
  List.map p_url Scenario.all_products /\
  length (rows (snd (Scenario.run_once
                       (Scenario.world_with Scenario.all_products)))) = 5%nat.
Proof.
  destruct (@one_request_per_product
              Scenario.http_get Scenario.Tag Scenario.select_one
              Scenario.get_text Scenario.utcnow
              (Scenario.world_with Scenario.all_products)
              {| cfg_products := Some Scenario.all_products |}
              Scenario.all_products eq_refl eq_refl)
    as (n & _ & H2 & H3 & _).
  - discriminate.
  - destruct (H3 tt) as [Hn Hrows]; [vm_compute; reflexivity|].
    subst n. split; [exact H2 | exact Hrows].
Defined.



(** A selector that the parser rejects ends the run too, before any row
    is written for the product. *)
Example scenario_invalid_selector :
  fst (Scenario.run_once
         (Scenario.world_with [Scenario.laptop_2000; Scenario.broken])) =
  Raised (ParserError (lit "SelectorSyntaxError"%string)) /\
  length (rows (snd (Scenario.run_once
                       (Scenario.world_with
                          [Scenario.laptop_2000; Scenario.broken])))) = 1%nat /\
  length (requests (snd (Scenario.run_once
                           (Scenario.world_with
                              [Scenario.laptop_2000; Scenario.broken])))) =
  2%nat.
Proof. repeat split; vm_compute; reflexivity. Qed.

Lemma summary_iff_no_alert_line_witness :
  exists out : list Line,
    stdout (snd (Scenario.run_once
                   (Scenario.world_with Scenario.all_products))) = out /\
    (In NoAlerts out <-> ~ (exists p t, In (AlertLine p t) out)).
Proof.
  exact (@summary_iff_no_alert_line
           Scenario.http_get Scenario.Tag Scenario.select_one
           Scenario.get_text Scenario.utcnow
           (Scenario.world_with Scenario.all_products)
           {| cfg_products := Some Scenario.all_products |}
           Scenario.all_products tt eq_refl eq_refl
           (fun H => ltac:(discriminate H))
           ltac:(vm_compute; reflexivity)).
Defined.
